(** * Balance-sheet validation and flattening (question2/utils.py)

    A shallow embedding of the three functions of [utils.py] that carry the
    logic of the pipeline:

    - [validate_balance_sheet_json_schema]: the top-level shape check,
    - [validate_balance_sheet_equation] with its inner [validate_node_sum],
    - [get_all_child_values] with its inner [traverse_node].

    Python floats are IEEE 754 binary64 numbers and are embedded as Rocq's
    primitive floats, so [+], [-], [abs], [<] and [==] below are the very
    operations the interpreter performs.  Exceptions are values of [exn];
    the mutable objects the functions write to (the [rows] list of the
    flattener, the logger of the validator) are the state of a small
    state-and-exception monad. *)

From Stdlib Require Import List String Ascii ZArith Bool Floats Lia.
Import ListNotations.

Local Open Scope string_scope.
Local Open Scope list_scope.

(** ** Exceptions *)

Inductive exn : Type :=
| KeyError (key : string)          (* [d[key]] on a dict without [key] *)
| TypeError                        (* [float(None)], [float([])], ... *)
| ValueError (msg : string)        (* [float("abc")], and the validator's own raise *)
| AssertionError (msg : string)    (* a failed [assert] *)
| ValidationError.                 (* jsonschema.exceptions.ValidationError *)

Inductive result (A : Type) : Type :=
| Ok (a : A)
| Raise (e : exn).

Arguments Ok {A} a.
Arguments Raise {A} e.

(** ** A state-and-exception monad

    [M S A] is a computation that reads and writes a state of type [S] and
    either returns an [A] or raises.  What was written before an exception
    stays written, as in Python. *)

Definition M (S A : Type) : Type := S -> S * result A.

Definition ret {S A} (a : A) : M S A := fun s => (s, Ok a).

Definition raise {S A} (e : exn) : M S A := fun s => (s, Raise e).

Definition bind {S A B} (m : M S A) (k : A -> M S B) : M S B :=
  fun s =>
    match m s with
    | (s', Ok a) => k a s'
    | (s', Raise e) => (s', Raise e)
    end.

Definition modify {S} (f : S -> S) : M S unit := fun s => (f s, Ok tt).

Declare Scope py_scope.
Delimit Scope py_scope with py.
Notation "x <- m ;; k" := (bind m (fun x => k))
  (at level 61, m at next level, right associativity) : py_scope.
Notation "m ;;; k" := (bind m (fun _ => k))
  (at level 61, right associativity) : py_scope.

Local Open Scope py_scope.

Section Loops.
Context {S A : Type}.

(** [for x in l: body(x)] *)
Section ForEach.
Variable body : A -> M S unit.

Fixpoint for_each (l : list A) : M S unit :=
  match l with
  | [] => ret tt
  | x :: l' => body x ;;; for_each l'
  end.
End ForEach.

(** [sum(f(x) for x in l)], the accumulator made explicit.  [sum] starts
    from 0 and adds the items from left to right as the generator yields
    them, in binary64 once a float has come; an exception raised by [f]
    leaves the loop at once.  (CPython 3.12 and later carry a correction
    term along this loop, which can move the last bit of a sum that is
    not exact; the loop below is the one the language reference gives.) *)
Section SumGen.
Variable f : A -> M S float.

Fixpoint sum_from (acc : float) (l : list A) : M S float :=
  match l with
  | [] => ret acc
  | x :: l' => v <- f x ;; sum_from (acc + v)%float l'
  end.

Definition sum_gen (l : list A) : M S float := sum_from 0%float l.
End SumGen.
End Loops.

(** ** Data model

    A node is a JSON object.  The program reads four of its keys and no
    other; a field below is [None] when the key is absent from the dict. *)

(** The ["value"] entry is only ever passed to [float()].  It is kept as
    what [float()] makes of it: a number (from a JSON number, a boolean or
    a numeric string), or the exception [float()] raises ([TypeError] on
    [null], a list or an object, [ValueError] on any other string). *)
Inductive pyvalue : Type :=
| Num (f : float)
| NotNum (e : exn).

Definition py_float (v : pyvalue) : result float :=
  match v with
  | Num f => Ok f
  | NotNum e => Raise e
  end.

(** The ["account_id"] entry: JSON [null], a string or a number. *)
Inductive json_id : Type :=
| IdNull
| IdStr (s : string)
| IdInt (z : Z).

Definition is_not_None (a : json_id) : bool :=
  match a with
  | IdNull => false
  | _ => true
  end.

Unset Elimination Schemes.
Inductive node : Type :=
| Node (name : option string)
       (value : option pyvalue)
       (account_id : option json_id)
       (items : option (list node)).
Set Elimination Schemes.

Definition name (n : node) : option string :=
  match n with Node nm _ _ _ => nm end.
Definition value (n : node) : option pyvalue :=
  match n with Node _ v _ _ => v end.
Definition account_id (n : node) : option json_id :=
  match n with Node _ _ a _ => a end.
Definition items (n : node) : option (list node) :=
  match n with Node _ _ _ its => its end.

(** Induction on a tree, with the hypothesis available for every child. *)
Section NodeInd.
Variable P : node -> Prop.
Hypothesis P_leaf : forall nm v a, P (Node nm v a None).
Hypothesis P_inner :
  forall nm v a cs, Forall P cs -> P (Node nm v a (Some cs)).

Fixpoint node_ind (n : node) : P n :=
  match n with
  | Node nm v a None => P_leaf nm v a
  | Node nm v a (Some cs) =>
      P_inner nm v a cs
        ((fix children (l : list node) : Forall P l :=
            match l with
            | [] => Forall_nil P
            | c :: l' => Forall_cons c (node_ind c) (children l')
            end) cs)
  end.
End NodeInd.

(** The parsed document: a dict in which the program looks up the three
    section keys. *)
Record document : Type := Document {
  assets : option node;
  liabilities : option node;
  equity : option node
}.

(** [d[key]] *)
Definition getitem {S A} (key : string) (field : option A) : M S A :=
  match field with
  | Some a => ret a
  | None => raise (KeyError key)
  end.

Definition lift {S A} (r : result A) : M S A :=
  match r with
  | Ok a => ret a
  | Raise e => raise e
  end.

(** ** The flattener: [get_all_child_values] *)

Module FlatRecord.
Record t : Type := mk {
  account_id : json_id;
  path : string;
  name : string;
  value : float
}.
End FlatRecord.

(** [pl.DataFrame(rows)] is kept as the list of row dicts it is built from. *)
Definition DataFrame : Type := list FlatRecord.t.

(** [rows.append(r)] *)
Definition append (r : FlatRecord.t) : M (list FlatRecord.t) unit :=
  modify (fun rows => rows ++ [r]).

(** [if current_path]: the empty string is false. *)
Definition truthy (s : string) : bool :=
  match s with
  | EmptyString => false
  | _ => true
  end.

Fixpoint traverse_node (n : node) (current_path : string) {struct n}
  : M (list FlatRecord.t) unit :=
  (match value n, account_id n with
   | Some v, Some a =>
       if is_not_None a then
         nm <- getitem "name" (name n) ;;
         f <- lift (py_float v) ;;
         append (FlatRecord.mk a current_path nm f)
       else ret tt
   | _, _ => ret tt
   end) ;;;
  match n with
  | Node nm _ _ (Some children) =>
      for_each
        (fun child =>
           child_path <-
             (if truthy current_path
              then (s <- getitem "name" nm ;; ret (current_path ++ "/" ++ s)%string)
              else getitem "name" nm) ;;
           traverse_node child child_path)
        children
  | Node _ _ _ None => ret tt
  end.

Definition sections (d : document) : list (string * option node) :=
  [("assets", assets d); ("liabilities", liabilities d); ("equity", equity d)].

Definition get_all_child_values (d : document) : result DataFrame :=
  match
    for_each
      (fun sec : string * option node =>
         match snd sec with
         | Some n => traverse_node n (fst sec)
         | None => ret tt
         end)
      (sections d) []
  with
  | (rows, Ok _) => Ok rows
  | (_, Raise e) => Raise e
  end.

(** ** Logging

    A call to the module's [logger] appends a record to the log.  The
    message is an f-string in the source; the record keeps its text and,
    apart, the values formatted into it. *)

Inductive level : Type := INFO | ERROR.

Inductive log_arg : Type :=
| AStr (s : string)
| AFloat (f : float).

Record log_record : Type := LogRecord {
  levelname : level;
  msg : string;
  args : list log_arg
}.

Definition logger : Type := list log_record.

Definition logger_info (m : string) : M logger unit :=
  modify (fun log => log ++ [LogRecord INFO m []]).

Definition logger_error (m : string) (a : list log_arg) : M logger unit :=
  modify (fun log => log ++ [LogRecord ERROR m a]).

(** ** The sum validator: [validate_balance_sheet_equation] *)

#[warnings="-inexact-float"]
Definition tolerance : float := 0.01%float.

Definition mismatch_message (nm : string) : string :=
  ("Balance sheet validation failed: " ++ nm
     ++ " value does not match sum of its children")%string.

Definition mismatch_log_text : string :=
  "Value mismatch for {node['name']}: node value = {node_value}, sum of children = {children_sum}".

Fixpoint validate_node_sum (n : node) {struct n} : M logger float :=
  v <- getitem "value" (value n) ;;
  node_value <- lift (py_float v) ;;
  match n with
  | Node _ _ _ None => ret node_value
  | Node nm _ _ (Some children) =>
      children_sum <- sum_gen validate_node_sum children ;;
      if (tolerance <? abs (node_value - children_sum))%float then
        s <- getitem "name" nm ;;
        logger_error mismatch_log_text
          [AStr s; AFloat node_value; AFloat children_sum] ;;;
        s' <- getitem "name" nm ;;
        raise (ValueError (mismatch_message s'))
      else ret node_value
  end.

Definition validate_balance_sheet_equation (d : document) : M logger float :=
  a <- getitem "assets" (assets d) ;;
  assets_value <- validate_node_sum a ;;
  l <- getitem "liabilities" (liabilities d) ;;
  liabilities_value <- validate_node_sum l ;;
  e <- getitem "equity" (equity d) ;;
  equity_value <- validate_node_sum e ;;
  if (assets_value =? liabilities_value + equity_value)%float then
    logger_info "All parent-child sums validated successfully" ;;;
    ret assets_value
  else raise (AssertionError "Assets do not equal liabilities plus equity").

(** ** The schema checker: [validate_balance_sheet_json_schema]

    The schema checker is the one function that meets documents of any
    shape, so it is stated over plain JSON values.  A JSON object is the
    list of its members, read by the first member of a given key. *)

Unset Elimination Schemes.
Inductive json : Type :=
| JNull
| JBool (b : bool)
| JInt (z : Z)
| JFloat (f : float)
| JStr (s : string)
| JArray (l : list json)
| JObject (members : list (string * json)).
Set Elimination Schemes.

Fixpoint lookup {A} (key : string) (members : list (string * A)) : option A :=
  match members with
  | [] => None
  | (k, v) :: rest => if String.eqb key k then Some v else lookup key rest
  end.

(** The JSON Schema keywords the program's schema uses: [type],
    [properties] and [required]. *)
Inductive jtype : Type :=
| TNull | TBoolean | TObject | TArray | TNumber | TString.

Unset Elimination Schemes.
Inductive schema : Type :=
| Schema (type : option jtype)
         (properties : list (string * schema))
         (required : list string).
Set Elimination Schemes.

Definition has_type (t : jtype) (j : json) : bool :=
  match t, j with
  | TNull, JNull => true
  | TBoolean, JBool _ => true
  | TObject, JObject _ => true
  | TArray, JArray _ => true
  | TNumber, JInt _ => true
  | TNumber, JFloat _ => true
  | TString, JStr _ => true
  | _, _ => false
  end.

(** [type] constrains every instance; [required] and [properties] constrain
    objects only, and [properties] only the members that are present. *)
Fixpoint is_valid (s : schema) (instance : json) {struct s} : bool :=
  match s with
  | Schema type properties required =>
      match type with
      | Some t => has_type t instance
      | None => true
      end
      &&
      match instance with
      | JObject members =>
          forallb
            (fun key => match lookup key members with
                        | Some _ => true
                        | None => false
                        end)
            required
          &&
          forallb
            (fun p : string * schema =>
               match lookup (fst p) members with
               | Some v => is_valid (snd p) v
               | None => true
               end)
            properties
      | _ => true
      end
  end.

(** [jsonschema.validate(instance, schema)] *)
Definition jsonschema_validate {S} (instance : json) (s : schema) : M S unit :=
  if is_valid s instance then ret tt else raise ValidationError.

Definition balance_sheet_schema : schema :=
  Schema (Some TObject)
    [("assets", Schema (Some TObject) [] []);
     ("liabilities", Schema (Some TObject) [] []);
     ("equity", Schema (Some TObject) [] [])]
    ["assets"; "liabilities"; "equity"].

Definition validate_balance_sheet_json_schema (balance_sheet_data : json)
  : M logger unit :=
  jsonschema_validate balance_sheet_data balance_sheet_schema ;;;
  logger_info "Balance sheet json schema validation passed".

(** ** Reading a tree

    The notions the statements below are written in.  None of them is used
    by the program. *)

(** A node that the flattener turns into a row: it has a ["value"] and an
    ["account_id"] that is not [null]. *)
Definition emits (n : node) : bool :=
  match value n, account_id n with
  | Some _, Some a => is_not_None a
  | _, _ => false
  end.

(** The name of a node that has one. *)
Definition label (n : node) : string :=
  match name n with
  | Some s => s
  | None => ""
  end.

Definition children (n : node) : list node :=
  match items n with
  | Some cs => cs
  | None => []
  end.

(** The nodes of a tree in document order: a node, then the subtrees of
    its children as ["items"] lists them. *)
Fixpoint preorder (n : node) : list node :=
  n :: match n with
       | Node _ _ _ (Some cs) => flat_map preorder cs
       | Node _ _ _ None => []
       end.

(** The same walk, every node paired with the chain that leads to it: the
    names of its ancestors, outermost first, after the chain the walk was
    started with. *)
Fixpoint walk (chain : list string) (n : node) : list (list string * node) :=
  (chain, n) ::
  match n with
  | Node _ _ _ (Some cs) => flat_map (walk (chain ++ [label n])) cs
  | Node _ _ _ None => []
  end.

Definition present (secs : list (string * option node)) : list (string * node) :=
  flat_map
    (fun sec : string * option node =>
       match snd sec with
       | Some n => [(fst sec, n)]
       | None => []
       end)
    secs.

Definition present_sections (d : document) : list (string * node) :=
  present (sections d).

Definition document_nodes (d : document) : list node :=
  flat_map (fun sec => preorder (snd sec)) (present_sections d).

Definition document_walk (d : document) : list (list string * node) :=
  flat_map (fun sec => walk [fst sec] (snd sec)) (present_sections d).

(** The number of emitting nodes of a tree, counted node by node. *)
Fixpoint count_emitting (n : node) : nat :=
  (if emits n then 1 else 0) +
  match n with
  | Node _ _ _ (Some cs) => list_sum (map count_emitting cs)
  | Node _ _ _ None => 0
  end.

(** The data model of the specification: every node has a name, and a
    ["value"], where there is one, is a number. *)
Fixpoint well_formed (n : node) : bool :=
  match n with
  | Node nm v _ its =>
      match nm with Some _ => true | None => false end
      && match v with Some (NotNum _) => false | _ => true end
      && match its with
         | Some cs => forallb well_formed cs
         | None => true
         end
  end.

Definition well_formed_document (d : document) : bool :=
  forallb (fun sec => well_formed (snd sec)) (present_sections d).

(** Row [r] is the row of node [n]: its name, [float] of its value and
    its account identifier. *)
Definition row_of (r : FlatRecord.t) (n : node) : Prop :=
  name n = Some (FlatRecord.name r)
  /\ value n = Some (Num (FlatRecord.value r))
  /\ account_id n = Some (FlatRecord.account_id r).

(** Row [r] is the row of the node of [p], with the chain of [p] joined
    by ["/"] as its path. *)
Definition row_at (r : FlatRecord.t) (p : list string * node) : Prop :=
  FlatRecord.path r = String.concat "/" (fst p) /\ row_of r (snd p).

(** The nodes of an optional section. *)
Definition nodes_of (s : option node) : list node :=
  match s with
  | Some n => preorder n
  | None => []
  end.

(** ** Reading the declared values *)

(** The number a node declares; a node that declares none has [nan]. *)
Definition declared (n : node) : float :=
  match value n with
  | Some (Num f) => f
  | _ => nan
  end.

(** [sum] of a list of floats: from 0, left to right. *)
Definition float_sum (l : list float) : float :=
  fold_left PrimFloat.add l 0%float.

(** A tree in which every node declares a number and every node with
    ["items"] declares exactly the sum of what its children declare. *)
Fixpoint sums_exact (n : node) : bool :=
  match n with
  | Node _ (Some (Num _)) _ None => true
  | Node _ (Some (Num v)) _ (Some cs) =>
      forallb sums_exact cs && (v =? float_sum (map declared cs))%float
  | Node _ _ _ _ => false
  end.

(** ** Reading the top level of a document *)

Definition is_object (j : json) : bool :=
  match j with
  | JObject _ => true
  | _ => false
  end.

Definition section_keys : list string := ["assets"; "liabilities"; "equity"].

(** Member [key] is there and is an object. *)
Definition object_at (key : string) (members : list (string * json)) : bool :=
  match lookup key members with
  | Some v => is_object v
  | None => false
  end.

(** ** The program in parts

    The pieces [traverse_node] and [get_all_child_values] are made of,
    named so that the proofs can speak of them. *)

(** What one visit does before it descends: the row of the node, if any. *)
Definition visit (n : node) (current_path : string) : M (list FlatRecord.t) unit :=
  match value n, account_id n with
  | Some v, Some a =>
      if is_not_None a then
        nm <- getitem "name" (name n) ;;
        f <- lift (py_float v) ;;
        append (FlatRecord.mk a current_path nm f)
      else ret tt
  | _, _ => ret tt
  end.

Definition descend (nm : option string) (current_path : string) (child : node)
  : M (list FlatRecord.t) unit :=
  child_path <-
    (if truthy current_path
     then (s <- getitem "name" nm ;; ret (current_path ++ "/" ++ s)%string)
     else getitem "name" nm) ;;
  traverse_node child child_path.

(** The body of the loop over the three section keys. *)
Definition visit_section (sec : string * option node) : M (list FlatRecord.t) unit :=
  match snd sec with
  | Some n => traverse_node n (fst sec)
  | None => ret tt
  end.

(** A traversal only ever appends to [rows]. *)
Definition appends {A} (m : M (list FlatRecord.t) A) : Prop :=
  forall rows, m rows = (rows ++ fst (m []), snd (m [])).

(** ** Sample documents *)

Definition leaf (nm : string) (v : float) (id : string) : node :=
  Node (Some nm) (Some (Num v)) (Some (IdStr id)) None.

Definition group (nm : string) (v : float) (cs : list node) : node :=
  Node (Some nm) (Some (Num v)) None (Some cs).

(** The example scenario of the specification. *)
Definition example_document : document :=
  Document
    (Some (group "assets" 100 [leaf "cash" 60 "A1"; leaf "ar" 40 "A2"]))
    (Some (group "liabilities" 40 [leaf "ap" 40 "L1"]))
    (Some (leaf "equity" 60 "E1")).

(** A document whose accounts are listed in descending order of name,
    identifier and value alike. *)
Definition descending_document : document :=
  Document
    (Some (group "assets" 100 [leaf "zeta" 70 "Z9"; leaf "alpha" 30 "A1"]))
    None
    None.

(** A document with the liabilities section only. *)
Definition liabilities_only : document :=
  Document None (Some (group "liabilities" 40 [leaf "ap" 40 "L1"])) None.
(** Assets declared 1/128 above the sum of the accounts: inside the
    tolerance of the per-node check. *)
Definition within_tolerance_assets : node :=
  group "assets" 100.0078125 [leaf "cash" 60 "A1"; leaf "ar" 40 "A2"].

Definition within_tolerance_document : document :=
  Document
    (Some within_tolerance_assets)
    (Some (group "liabilities" 40 [leaf "ap" 40 "L1"]))
    (Some (leaf "equity" 60 "E1")).

(** Two trees of the same name that miss their sums by different amounts. *)
Definition overstated_assets : node :=
  group "assets" 100.5 [leaf "cash" 60 "A1"; leaf "ar" 40 "A2"].

Definition understated_assets : node :=
  group "assets" 3 [leaf "cash" 7 "A1"].

(** ** When the two traversals go through

    Executable criteria for the flattener and the validator to reach the
    end of a tree, and the loader's view of the file system. *)

Definition has_name (n : node) : bool :=
  match name n with
  | Some _ => true
  | None => false
  end.

Definition numeric (v : option pyvalue) : bool :=
  match v with
  | Some (Num _) => true
  | _ => false
  end.

(** A tree the flattener walks to the end: a node that emits has a name
    and a numeric value, and a node with at least one child has a name. *)
Fixpoint flattenable (n : node) : bool :=
  match n with
  | Node nm v a its =>
      (if emits (Node nm v a its)
       then has_name (Node nm v a its) && numeric v
       else true)
      && match its with
         | Some cs =>
             match cs with
             | [] => true
             | _ :: _ => has_name (Node nm v a its)
             end
             && forallb flattenable cs
         | None => true
         end
  end.

Definition flattenable_document (d : document) : bool :=
  forallb (fun sec => flattenable (snd sec)) (present_sections d).

(** A tree the validator accepts: every node declares a number, and every
    node with ["items"] declares one within the tolerance of the sum of
    what its children declare. *)
Fixpoint sums_within (n : node) : bool :=
  match n with
  | Node _ (Some (Num _)) _ None => true
  | Node _ (Some (Num v)) _ (Some cs) =>
      forallb sums_within cs
      && negb (tolerance <? abs (v - float_sum (map declared cs)))%float
  | Node _ _ _ _ => false
  end.

(** A document the validator accepts: the three sections are there, each
    tree is accepted, and the declared totals balance under [==]. *)
Definition balanced (d : document) : bool :=
  match assets d, liabilities d, equity d with
  | Some a, Some l, Some e =>
      sums_within a && sums_within l && sums_within e
      && (declared a =? declared l + declared e)%float
  | _, _, _ => false
  end.

(** Every node of the tree has a name. *)
Fixpoint named (n : node) : bool :=
  match n with
  | Node nm _ _ its =>
      match nm with Some _ => true | None => false end
      && match its with
         | Some cs => forallb named cs
         | None => true
         end
  end.

Definition named_document (d : document) : bool :=
  forallb (fun sec => named (snd sec)) (present_sections d).

(** The record [validate_node_sum] logs before it raises. *)
Definition mismatch_record (nm : string) (v s : float) : log_record :=
  LogRecord ERROR mismatch_log_text [AStr nm; AFloat v; AFloat s].

(** ** The loader: [load_balance_sheet_json]

    The file system as the loader meets it: what [open(name, 'r')]
    followed by [json.load] does for a given name. *)

Inductive file : Type :=
| NoSuchFile                    (* [open] raises FileNotFoundError *)
| Unreadable                    (* [open] or the read raises another OSError *)
| Text (parsed : option json).  (* the value [json.load] returns, or none
                                   when the text is not JSON *)

Definition filesystem : Type := string -> file.

Inductive load_exn : Type :=
| FileNotFoundError (msg : string)
| OSError
| JSONDecodeError.

Inductive loaded : Type :=
| Loaded (data : json)
| LoadRaise (e : load_exn).

Definition load_balance_sheet_json (fs : filesystem) (path : string)
  : logger -> logger * loaded :=
  fun log =>
    match fs "balance_sheet_payload.json" with
    | Text (Some data) => (log, Loaded data)
    | Text None => (log, LoadRaise JSONDecodeError)
    | Unreadable => (log, LoadRaise OSError)
    | NoSuchFile =>
        (log ++ [LogRecord ERROR "Balance sheet json file not found" []],
         LoadRaise
           (FileNotFoundError
              ("Balance sheet json file not found at " ++ path)%string))
    end.

(** ** More sample trees *)

(** An account without a name. *)
Definition unnamed_account : node :=
  Node None (Some (Num 5)) (Some (IdStr "A1")) None.

(** A group whose ["items"] list is empty. *)
Definition empty_group : node :=
  Node (Some "assets") (Some (Num 60)) None (Some []).

(** A file system that holds [other.json] and nothing else. *)
Definition only_other_json : filesystem :=
  fun name =>
    if String.eqb name "other.json" then Text (Some (JObject [])) else NoSuchFile.

(** What [traverse_node] does at a node reached through [chain], by
    whether the tree below is flattenable. *)
Definition flattens_at (n : node) (chain : list string) (rows : list FlatRecord.t)
  : Prop :=
  if flattenable n
  then exists out,
         traverse_node n (String.concat "/" chain) rows = (rows ++ out, Ok tt)
         /\ Forall2 row_at out (filter (fun p => emits (snd p)) (walk chain n))
  else exists rows' e,
         traverse_node n (String.concat "/" chain) rows = (rows', Raise e).

(** * Proofs *)

(** ** Binary64 arithmetic *)

Lemma SFeqb_finite s1 m1 e1 s2 m2 e2 :
  SFeqb (S754_finite s1 m1 e1) (S754_finite s2 m2 e2) = true ->
  s1 = s2 /\ m1 = m2 /\ e1 = e2.
Proof.
  unfold SFeqb, SFcompare.
  destruct s1, s2; try discriminate;
    destruct (Z.compare e1 e2) eqn:He; try discriminate;
    destruct (Pos.compare_cont Eq m1 m2) eqn:Hm; try discriminate;
    intros _; apply Z.compare_eq in He; apply Pos.compare_eq in Hm;
    subst; auto.
Qed.

Lemma shl_align_same m e : shl_align m e e = (m, e).
Proof. unfold shl_align. now rewrite Z.sub_diag. Qed.

(** The difference of two equal numbers is a zero, and that of two equal
    infinities is not a number: neither exceeds the tolerance. *)
Lemma SF64sub_eq_small x y :
  SFeqb x y = true ->
  SFltb (Prim2SF tolerance) (SFabs (SF64sub x y)) = false.
Proof.
  destruct x as [sx | sx | | sx mx ex], y as [sy | sy | | sy my ey];
    try destruct sx; try destruct sy; try discriminate; try reflexivity;
    intros H; apply SFeqb_finite in H; destruct H as (_ & -> & ->);
    unfold SF64sub, SFsub;
    rewrite Z.min_id, shl_align_same; cbn [fst];
    rewrite Z.sub_diag; reflexivity.
Qed.

Lemma float_eq_within_tolerance (x y : float) :
  (x =? y)%float = true ->
  (tolerance <? abs (x - y))%float = false.
Proof.
  rewrite FloatAxioms.eqb_spec, ltb_spec, abs_spec, sub_spec.
  apply SF64sub_eq_small.
Qed.

(** ** Strings and paths *)

Lemma append_assoc (a b c : string) :
  ((a ++ b) ++ c)%string = (a ++ b ++ c)%string.
Proof. induction a as [|ch a IH]; cbn; [reflexivity | now rewrite IH]. Qed.

Lemma concat_snoc (sep : string) (chain : list string) (s : string) :
  chain <> [] ->
  String.concat sep (chain ++ [s])
  = (String.concat sep chain ++ sep ++ s)%string.
Proof.
  induction chain as [|x [|y rest] IH]; intros Hne.
  - contradiction.
  - reflexivity.
  - change (String.concat sep ((x :: y :: rest) ++ [s]))
      with (x ++ sep ++ String.concat sep ((y :: rest) ++ [s]))%string.
    rewrite IH by discriminate.
    change (String.concat sep (x :: y :: rest))
      with (x ++ sep ++ String.concat sep (y :: rest))%string.
    now rewrite !append_assoc.
Qed.

Lemma truthy_append (a b : string) :
  truthy a = true -> truthy (a ++ b)%string = true.
Proof. destruct a; [discriminate | reflexivity]. Qed.

(** ** The flattener *)

Lemma traverse_node_eq (n : node) (current_path : string) :
  traverse_node n current_path
  = (visit n current_path ;;;
     for_each (descend (name n) current_path) (children n)).
Proof. destruct n as [nm v a [cs|]]; reflexivity. Qed.

Lemma visit_well_formed (n : node) (chain : list string) (rows : list FlatRecord.t) :
  well_formed n = true ->
  exists out,
    visit n (String.concat "/" chain) rows = (rows ++ out, Ok tt)
    /\ Forall2 row_at out (filter (fun p => emits (snd p)) [(chain, n)]).
Proof.
  destruct n as [[s|] v a its]; cbn; [|discriminate].
  unfold visit, emits; cbn.
  destruct v as [[f|e]|]; cbn; try discriminate; intros _.
  - destruct a as [a|]; cbn.
    + destruct (is_not_None a) eqn:Ha.
      * eexists; split; [reflexivity|].
        constructor; [|constructor].
        repeat split.
      * exists []. rewrite app_nil_r. split; [reflexivity | constructor].
    + exists []. rewrite app_nil_r. split; [reflexivity | constructor].
  - exists []. rewrite app_nil_r.
    destruct a as [a|]; split; try reflexivity; constructor.
Qed.

Lemma for_each_descend (s : string) (chain : list string) (cs : list node) :
  chain <> [] ->
  truthy (String.concat "/" chain) = true ->
  Forall
    (fun c =>
       well_formed c = true ->
       forall chain' rows,
         chain' <> [] ->
         truthy (String.concat "/" chain') = true ->
         exists out,
           traverse_node c (String.concat "/" chain') rows = (rows ++ out, Ok tt)
           /\ Forall2 row_at out (filter (fun p => emits (snd p)) (walk chain' c)))
    cs ->
  forallb well_formed cs = true ->
  forall rows,
  exists out,
    for_each (descend (Some s) (String.concat "/" chain)) cs rows
    = (rows ++ out, Ok tt)
    /\ Forall2 row_at out
         (filter (fun p => emits (snd p)) (flat_map (walk (chain ++ [s])) cs)).
Proof.
  intros Hne Htr Hall. induction Hall as [|c cs Hc _ IH]; intros Hwf rows.
  - exists []. rewrite app_nil_r. split; [reflexivity | constructor].
  - cbn in Hwf. apply andb_true_iff in Hwf. destruct Hwf as [Hwc Hwcs].
    destruct (Hc Hwc (chain ++ [s]) rows) as (out1 & E1 & F1).
    { now destruct chain. }
    { rewrite concat_snoc by assumption. now apply truthy_append. }
    destruct (IH Hwcs (rows ++ out1)) as (out2 & E2 & F2).
    exists (out1 ++ out2). split.
    + cbn [for_each]. unfold bind at 1. unfold descend at 1.
      rewrite Htr. unfold bind at 1. unfold bind at 1. cbn [getitem ret].
      rewrite <- concat_snoc by assumption.
      rewrite E1, E2, app_assoc. reflexivity.
    + cbn [flat_map]. rewrite filter_app. now apply Forall2_app.
Qed.

Lemma traverse_node_walk (n : node) :
  well_formed n = true ->
  forall chain rows,
    chain <> [] ->
    truthy (String.concat "/" chain) = true ->
    exists out,
      traverse_node n (String.concat "/" chain) rows = (rows ++ out, Ok tt)
      /\ Forall2 row_at out (filter (fun p => emits (snd p)) (walk chain n)).
Proof.
  induction n as [nm v a | nm v a cs IH] using node_ind;
    intros Hwf chain rows Hne Htr.
  - destruct (visit_well_formed (Node nm v a None) chain rows Hwf)
      as (out & E & F).
    exists out. rewrite traverse_node_eq. unfold bind. rewrite E. cbn.
    split; [reflexivity | exact F].
  - destruct (visit_well_formed (Node nm v a (Some cs)) chain rows Hwf)
      as (out1 & E1 & F1).
    assert (Hcs : forallb well_formed cs = true).
    { cbn in Hwf. now apply andb_true_iff in Hwf. }
    destruct nm as [s|]; [|discriminate].
    destruct (for_each_descend s chain cs Hne Htr IH Hcs (rows ++ out1))
      as (out2 & E2 & F2).
    exists (out1 ++ out2). rewrite traverse_node_eq. unfold bind.
    rewrite E1. cbn [children items name]. rewrite E2, app_assoc.
    split; [reflexivity|].
    change (walk chain (Node (Some s) v a (Some cs)))
      with ([(chain, Node (Some s) v a (Some cs))]
              ++ flat_map (walk (chain ++ [s])) cs).
    rewrite filter_app. now apply Forall2_app.
Qed.

Lemma get_all_child_values_eq (d : document) :
  get_all_child_values d
  = match for_each visit_section (sections d) [] with
    | (rows, Ok _) => Ok rows
    | (_, Raise e) => Raise e
    end.
Proof. reflexivity. Qed.

Lemma for_each_sections_walk (secs : list (string * option node)) :
  Forall (fun sec => truthy (fst sec) = true) secs ->
  forallb (fun sec => well_formed (snd sec)) (present secs) = true ->
  forall rows,
  exists out,
    for_each visit_section secs rows = (rows ++ out, Ok tt)
    /\ Forall2 row_at out
         (filter (fun p => emits (snd p))
            (flat_map (fun sec => walk [fst sec] (snd sec)) (present secs))).
Proof.
  induction 1 as [|[key [n|]] secs Hkey _ IH]; intros Hwf rows.
  - exists []. rewrite app_nil_r. split; [reflexivity | constructor].
  - cbn in Hwf. apply andb_true_iff in Hwf. destruct Hwf as [Hn Hrest].
    destruct (traverse_node_walk n Hn [key] rows) as (out1 & E1 & F1);
      [discriminate | exact Hkey |].
    destruct (IH Hrest (rows ++ out1)) as (out2 & E2 & F2).
    exists (out1 ++ out2). split.
    + cbn [for_each]. unfold bind, visit_section at 1. cbn [fst snd].
      cbn [String.concat] in E1. rewrite E1, E2, app_assoc. reflexivity.
    + cbn [present flat_map fst snd app].
      rewrite filter_app. apply Forall2_app; assumption.
  - destruct (IH Hwf rows) as (out & E & F).
    exists out. split; [|exact F].
    cbn [for_each]. unfold bind, visit_section at 1. cbn. exact E.
Qed.

Lemma section_keys_truthy (d : document) :
  Forall (fun sec => truthy (fst sec) = true) (sections d).
Proof. repeat constructor. Qed.

(** The rows of a well-formed document, read off the walk of its trees. *)
Lemma get_all_child_values_walk (d : document) :
  well_formed_document d = true ->
  exists rows,
    get_all_child_values d = Ok rows
    /\ Forall2 row_at rows (filter (fun p => emits (snd p)) (document_walk d)).
Proof.
  intros Hwf.
  destruct (for_each_sections_walk (sections d) (section_keys_truthy d) Hwf [])
    as (out & E & F).
  exists out. rewrite get_all_child_values_eq, E. split; [reflexivity | exact F].
Qed.

Lemma appends_ret {A} (a : A) : appends (ret a).
Proof. intros rows. cbn. now rewrite app_nil_r. Qed.

Lemma appends_raise {A} (e : exn) : appends (@raise _ A e).
Proof. intros rows. cbn. now rewrite app_nil_r. Qed.

Lemma appends_getitem {A} key (field : option A) : appends (getitem key field).
Proof. destruct field; [apply appends_ret | apply appends_raise]. Qed.

Lemma appends_lift {A} (r : result A) : appends (lift r).
Proof. destruct r; [apply appends_ret | apply appends_raise]. Qed.

Lemma appends_append (r : FlatRecord.t) : appends (append r).
Proof. intros rows. reflexivity. Qed.

Lemma appends_bind {A B} (m : M (list FlatRecord.t) A) (k : A -> M (list FlatRecord.t) B) :
  appends m -> (forall a, appends (k a)) -> appends (bind m k).
Proof.
  intros Hm Hk rows. unfold bind. rewrite (Hm rows).
  destruct (m []) as [out [a|e]]; cbn [fst snd].
  - rewrite (Hk a (rows ++ out)), (Hk a out). cbn [fst snd].
    now rewrite app_assoc.
  - reflexivity.
Qed.

Lemma appends_for_each {A} (body : A -> M (list FlatRecord.t) unit) (l : list A) :
  Forall (fun x => appends (body x)) l -> appends (for_each body l).
Proof.
  induction 1 as [|x l Hx _ IH]; cbn [for_each].
  - apply appends_ret.
  - apply appends_bind; [exact Hx | intros _; exact IH].
Qed.

Lemma appends_visit (n : node) (p : string) : appends (visit n p).
Proof.
  unfold visit. destruct (value n), (account_id n) as [a|];
    try apply appends_ret.
  destruct (is_not_None a); [|apply appends_ret].
  apply appends_bind; [apply appends_getitem | intros nm].
  apply appends_bind; [apply appends_lift | intros f].
  apply appends_append.
Qed.

Lemma appends_traverse_node (n : node) :
  forall p, appends (traverse_node n p).
Proof.
  induction n as [nm v a | nm v a cs IH] using node_ind; intros p;
    rewrite traverse_node_eq;
    (apply appends_bind; [apply appends_visit | intros _]).
  - apply appends_ret.
  - apply appends_for_each. cbn [name].
    eapply Forall_impl; [|exact IH]. intros c Hc. unfold descend.
    apply appends_bind; [|intros q; apply Hc].
    destruct (truthy p); [|apply appends_getitem].
    apply appends_bind; [apply appends_getitem | intros s; apply appends_ret].
Qed.



(** ** Lists *)

Lemma Forall2_pick_l {A B} (R : A -> B -> Prop) (l1 : list A) (l2 : list B) :
  Forall2 R l1 l2 -> forall x, In x l1 -> exists y, In y l2 /\ R x y.
Proof.
  induction 1 as [|a b l1 l2 Hab _ IH]; intros x [].
  - subst. exists b. split; [now left | assumption].
  - destruct (IH x H) as (y & Hy & Hxy). exists y. split; [now right | assumption].
Qed.

Lemma Forall2_pick_r {A B} (R : A -> B -> Prop) (l1 : list A) (l2 : list B) :
  Forall2 R l1 l2 -> forall y, In y l2 -> exists x, In x l1 /\ R x y.
Proof.
  induction 1 as [|a b l1 l2 Hab _ IH]; intros y [].
  - subst. exists a. split; [now left | assumption].
  - destruct (IH y H) as (x & Hx & Hxy). exists x. split; [now right | assumption].
Qed.

Lemma Forall2_map_snd {A B C} (R : A -> C -> Prop) (l1 : list A) (l2 : list (B * C)) :
  Forall2 (fun a p => R a (snd p)) l1 l2 -> Forall2 R l1 (map snd l2).
Proof. induction 1; cbn; constructor; assumption. Qed.

Lemma filter_map_snd {B C} (f : C -> bool) (l : list (B * C)) :
  filter f (map snd l) = map snd (filter (fun p => f (snd p)) l).
Proof.
  induction l as [|p l IH]; cbn; [reflexivity|].
  destruct (f (snd p)); cbn; now rewrite IH.
Qed.

Lemma length_filter_flat_map {A B} (p : B -> bool) (f : A -> list B) (l : list A) :
  List.length (filter p (flat_map f l))
  = list_sum (map (fun x => List.length (filter p (f x))) l).
Proof.
  induction l as [|x l IH]; cbn; [reflexivity|].
  now rewrite filter_app, length_app, IH.
Qed.

(** ** Walks *)

Lemma walk_preorder (n : node) :
  forall chain, map snd (walk chain n) = preorder n.
Proof.
  induction n as [nm v a | nm v a cs IH] using node_ind; intros chain.
  - reflexivity.
  - cbn [walk preorder map snd]. f_equal.
    generalize (chain ++ [label (Node nm v a (Some cs))]). intros chain'.
    induction IH as [|c cs Hc _ IHcs]; cbn; [reflexivity|].
    now rewrite map_app, Hc, IHcs.
Qed.

Lemma document_walk_nodes (d : document) :
  map snd (document_walk d) = document_nodes d.
Proof.
  unfold document_walk, document_nodes.
  induction (present_sections d) as [|sec l IH]; cbn; [reflexivity|].
  now rewrite map_app, walk_preorder, IH.
Qed.

Lemma document_nodes_sections (d : document) :
  document_nodes d
  = nodes_of (assets d) ++ nodes_of (liabilities d) ++ nodes_of (equity d).
Proof.
  destruct d as [[a|] [l|] [e|]]; cbn; now rewrite ?app_nil_r.
Qed.

Lemma count_emitting_preorder (n : node) :
  List.length (filter emits (preorder n)) = count_emitting n.
Proof.
  induction n as [nm v a | nm v a cs IH] using node_ind.
  - cbn [preorder count_emitting filter].
    destruct (emits (Node nm v a None)); reflexivity.
  - cbn [preorder count_emitting filter].
    assert (E : List.length (filter emits (flat_map preorder cs))
                = list_sum (map count_emitting cs)).
    { induction IH as [|c cs Hc _ IHcs]; cbn; [reflexivity|].
      now rewrite filter_app, length_app, Hc, IHcs. }
    destruct (emits (Node nm v a (Some cs))); cbn [List.length]; rewrite E; lia.
Qed.

Lemma get_all_child_values_nodes (d : document) :
  well_formed_document d = true ->
  exists rows,
    get_all_child_values d = Ok rows
    /\ Forall2 row_of rows (filter emits (document_nodes d)).
Proof.
  intros Hwf. destruct (get_all_child_values_walk d Hwf) as (rows & E & F).
  exists rows. split; [exact E|].
  rewrite <- document_walk_nodes, filter_map_snd.
  apply Forall2_map_snd. eapply Forall2_impl; [|exact F].
  intros r p H. apply H.
Qed.

Lemma walk_head (chain : list string) (n : node) : In (chain, n) (walk chain n).
Proof. destruct n as [nm v a [cs|]]; now left. Qed.

Lemma walk_child (chain : list string) (n c : node) :
  In c (children n) -> In (chain ++ [label n], c) (walk chain n).
Proof.
  destruct n as [nm v a [cs|]]; cbn [children items]; [|contradiction].
  intros Hc. right. apply in_flat_map. exists c. split; [exact Hc | apply walk_head].
Qed.

Lemma document_walk_root (d : document) (key : string) (root : node) :
  In (key, root) (present_sections d) -> In ([key], root) (document_walk d).
Proof.
  intros H. apply in_flat_map. exists (key, root). split; [exact H | apply walk_head].
Qed.

Lemma document_walk_child (d : document) (key : string) (root c : node) :
  In (key, root) (present_sections d) -> In c (children root) ->
  In ([key; label root], c) (document_walk d).
Proof.
  intros H Hc. apply in_flat_map. exists (key, root). split; [exact H|].
  apply (walk_child [key] root c Hc).
Qed.




(** ** The sum validator *)

Lemma validate_node_sum_leaf nm (f : float) a (log : logger) :
  validate_node_sum (Node nm (Some (Num f)) a None) log = (log, Ok f).
Proof. reflexivity. Qed.

Lemma validate_node_sum_inner nm (v : float) a cs (log : logger) :
  validate_node_sum (Node nm (Some (Num v)) a (Some cs)) log
  = match sum_gen validate_node_sum cs log with
    | (log1, Ok s) =>
        if (tolerance <? abs (v - s))%float then
          match nm with
          | Some x =>
              (log1 ++ [LogRecord ERROR mismatch_log_text
                          [AStr x; AFloat v; AFloat s]],
               Raise (ValueError (mismatch_message x)))
          | None => (log1, Raise (KeyError "name"))
          end
        else (log1, Ok v)
    | (log1, Raise e) => (log1, Raise e)
    end.
Proof.
  cbn [validate_node_sum value]. unfold bind at 1 2 3. cbn [getitem lift py_float ret].
  destruct (sum_gen validate_node_sum cs log) as [log1 [s|e]]; [|reflexivity].
  destruct (tolerance <? abs (v - s))%float; [|reflexivity].
  destruct nm; reflexivity.
Qed.

(** What the validator returns is what the node declares. *)
Lemma validate_node_sum_declared (n : node) (log log' : logger) (r : float) :
  validate_node_sum n log = (log', Ok r) -> value n = Some (Num r).
Proof.
  destruct n as [nm [[v|e]|] a [cs|]]; try discriminate.
  - rewrite validate_node_sum_inner.
    destruct (sum_gen validate_node_sum cs log) as [log1 [s|e]]; [|discriminate].
    destruct (tolerance <? abs (v - s))%float.
    + destruct nm; discriminate.
    + now intros [= _ ->].
  - rewrite validate_node_sum_leaf. now intros [= _ ->].
Qed.

Lemma sum_from_exact (cs : list node) :
  Forall
    (fun c => forall log, sums_exact c = true ->
                          validate_node_sum c log = (log, Ok (declared c)))
    cs ->
  forallb sums_exact cs = true ->
  forall acc log,
    sum_from validate_node_sum acc cs log
    = (log, Ok (fold_left PrimFloat.add (map declared cs) acc)).
Proof.
  induction 1 as [|c cs Hc _ IH]; intros Hex acc log; [reflexivity|].
  cbn in Hex. apply andb_true_iff in Hex. destruct Hex as [Hc' Hcs].
  cbn [sum_from map fold_left]. unfold bind. rewrite (Hc log Hc').
  apply IH, Hcs.
Qed.

Lemma validate_node_sum_exact (n : node) :
  forall log, sums_exact n = true ->
              validate_node_sum n log = (log, Ok (declared n)).
Proof.
  induction n as [nm v a | nm v a cs IH] using node_ind; intros log Hex.
  - destruct v as [[f|e]|]; try discriminate. reflexivity.
  - destruct v as [[f|e]|]; try discriminate.
    cbn in Hex. apply andb_true_iff in Hex. destruct Hex as [Hcs Heq].
    rewrite validate_node_sum_inner. unfold sum_gen.
    rewrite (sum_from_exact cs IH Hcs).
    fold (float_sum (map declared cs)).
    now rewrite (float_eq_within_tolerance _ _ Heq).
Qed.

Lemma validate_balance_sheet_equation_eq (d : document) (a l e : node)
      (log0 log1 log2 log3 : logger) (va vl ve : float) :
  assets d = Some a -> liabilities d = Some l -> equity d = Some e ->
  validate_node_sum a log0 = (log1, Ok va) ->
  validate_node_sum l log1 = (log2, Ok vl) ->
  validate_node_sum e log2 = (log3, Ok ve) ->
  validate_balance_sheet_equation d log0
  = if (va =? vl + ve)%float
    then (log3 ++ [LogRecord INFO "All parent-child sums validated successfully" []],
          Ok va)
    else (log3, Raise (AssertionError "Assets do not equal liabilities plus equity")).
Proof.
  intros Ha Hl He Va Vl Ve. unfold validate_balance_sheet_equation.
  rewrite Ha, Hl, He. unfold bind. cbn [getitem ret]. rewrite Va, Vl, Ve.
  destruct (va =? vl + ve)%float; reflexivity.
Qed.

(** ** The schema checker *)

Lemma is_valid_balance_sheet (members : list (string * json)) :
  is_valid balance_sheet_schema (JObject members)
  = object_at "assets" members
    && object_at "liabilities" members
    && object_at "equity" members.
Proof.
  unfold object_at. cbn.
  destruct (lookup "assets" members) as [[]|];
    destruct (lookup "liabilities" members) as [[]|];
    destruct (lookup "equity" members) as [[]|]; reflexivity.
Qed.

Lemma object_at_true (key : string) (members : list (string * json)) :
  object_at key members = true
  <-> exists ms, lookup key members = Some (JObject ms).
Proof.
  unfold object_at. destruct (lookup key members) as [[]|]; cbn; split;
    try discriminate; try (intros [ms H]; discriminate);
    try reflexivity.
  intros _. now eexists.
Qed.

Lemma object_at_false (key : string) (members : list (string * json)) :
  object_at key members = false
  <-> (lookup key members = None
       \/ exists v, lookup key members = Some v /\ is_object v = false).
Proof.
  unfold object_at. destruct (lookup key members) as [v|]; split.
  - intros H. right. now exists v.
  - intros [H | (v' & [= <-] & H)]; [discriminate | exact H].
  - now left.
  - reflexivity.
Qed.

Lemma validate_schema_eq (data : json) (log : logger) :
  validate_balance_sheet_json_schema data log
  = if is_valid balance_sheet_schema data
    then (log ++ [LogRecord INFO "Balance sheet json schema validation passed" []],
          Ok tt)
    else (log, Raise ValidationError).
Proof.
  unfold validate_balance_sheet_json_schema, jsonschema_validate, bind.
  destruct (is_valid balance_sheet_schema data); reflexivity.
Qed.

(** * The claims *)

(** C1, as the program has it.  For a well-formed document the flattener
    returns rows that match, one for one and in order, the emitting nodes
    of the walk, and the path of each row is the chain of its node joined
    by ["/"]: the section key first, then the name of every ancestor node
    from the section root down to the parent, the node's own name left
    out.  Hence a section root that is emitted has the section key as its
    path, and an emitted direct child of a section root has the path
    [key/name-of-the-root]. *)
Theorem path_is_section_key_then_ancestor_names (d : document) :
  well_formed_document d = true ->
  exists rows,
    get_all_child_values d = Ok rows
    /\ Forall2 row_at rows (filter (fun p => emits (snd p)) (document_walk d))
    /\ (forall key root,
          In (key, root) (present_sections d) -> emits root = true ->
          exists r, In r rows /\ row_of r root /\ FlatRecord.path r = key)
    /\ (forall key root c,
          In (key, root) (present_sections d) -> In c (children root) ->
          emits c = true ->
          exists r, In r rows /\ row_of r c
                    /\ FlatRecord.path r = (key ++ "/" ++ label root)%string).
Proof.
  intros Hwf. destruct (get_all_child_values_walk d Hwf) as (rows & E & F).
  exists rows. repeat split; try assumption.
  - intros key root Hin Hem.
    destruct (Forall2_pick_r _ _ _ F ([key], root)) as (r & Hr & Hp & Hrow).
    { apply filter_In. split; [now apply document_walk_root | exact Hem]. }
    exists r. repeat split; try assumption; apply Hrow.
  - intros key root c Hin Hc Hem.
    destruct (Forall2_pick_r _ _ _ F ([key; label root], c)) as (r & Hr & Hp & Hrow).
    { apply filter_In. split; [now apply document_walk_child | exact Hem]. }
    exists r. repeat split; try assumption; apply Hrow.
Qed.

(** C1, as stated, at the example scenario of the specification: the
    accounts [cash] and [ar] are direct children of the assets root and
    their path is ["assets/assets"], not ["assets"]. *)
Lemma child_of_section_root_path_counterexample :
  get_all_child_values example_document
  = Ok [FlatRecord.mk (IdStr "A1") "assets/assets" "cash" 60;
        FlatRecord.mk (IdStr "A2") "assets/assets" "ar" 40;
        FlatRecord.mk (IdStr "L1") "liabilities/liabilities" "ap" 40;
        FlatRecord.mk (IdStr "E1") "equity" "equity" 60]
  /\ "assets/assets" <> "assets".
Proof. split; [reflexivity | discriminate]. Qed.

Lemma path_is_section_key_then_ancestor_names_witness :
  well_formed_document example_document = true
  /\ exists rows,
       get_all_child_values example_document = Ok rows
       /\ Forall2 row_at rows
            (filter (fun p => emits (snd p)) (document_walk example_document))
       /\ (forall key root,
             In (key, root) (present_sections example_document) ->
             emits root = true ->
             exists r, In r rows /\ row_of r root /\ FlatRecord.path r = key)
       /\ (forall key root c,
             In (key, root) (present_sections example_document) ->
             In c (children root) ->
             emits c = true ->
             exists r, In r rows /\ row_of r c
                       /\ FlatRecord.path r = (key ++ "/" ++ label root)%string).
Proof.
  split;
    [reflexivity
    | apply (path_is_section_key_then_ancestor_names example_document);
      reflexivity].
Defined.

(** C6.  For a well-formed document the number of rows is the number of
    nodes of the three section trees that have a ["value"] and an
    ["account_id"] other than [null]; every row is the row of such a node,
    with its name, [float] of its value and its account identifier, and
    every such node has its row, wherever it stands in the tree and whether
    or not the nodes above it emit a row themselves. *)
Theorem one_row_per_account_node (d : document) :
  well_formed_document d = true ->
  exists rows,
    get_all_child_values d = Ok rows
    /\ List.length rows
       = list_sum (map (fun sec => count_emitting (snd sec)) (present_sections d))
    /\ (forall r, In r rows ->
          exists n, In n (document_nodes d) /\ emits n = true /\ row_of r n)
    /\ (forall n, In n (document_nodes d) -> emits n = true ->
          exists r, In r rows /\ row_of r n).
Proof.
  intros Hwf. destruct (get_all_child_values_nodes d Hwf) as (rows & E & F).
  exists rows. repeat split; try assumption.
  - rewrite (Forall2_length F). unfold document_nodes.
    rewrite length_filter_flat_map. f_equal. apply map_ext.
    intros sec. apply count_emitting_preorder.
  - intros r Hr. destruct (Forall2_pick_l _ _ _ F r Hr) as (n & Hn & Hrow).
    apply filter_In in Hn. exists n. tauto.
  - intros n Hn Hem. apply (Forall2_pick_r _ _ _ F n).
    apply filter_In. tauto.
Qed.

Lemma one_row_per_account_node_witness :
  well_formed_document example_document = true
  /\ exists rows,
       get_all_child_values example_document = Ok rows
       /\ List.length rows
          = list_sum (map (fun sec => count_emitting (snd sec))
                        (present_sections example_document))
       /\ (forall r, In r rows ->
             exists n, In n (document_nodes example_document)
                       /\ emits n = true /\ row_of r n)
       /\ (forall n, In n (document_nodes example_document) -> emits n = true ->
             exists r, In r rows /\ row_of r n).
Proof.
  split;
    [reflexivity
    | apply (one_row_per_account_node example_document); reflexivity].
Defined.

(** C7.  The rows of a well-formed document follow the emitting nodes in
    depth-first document order: the assets tree, then the liabilities
    tree, then the equity tree, each in pre-order (a node before its
    children, the children as ["items"] lists them).  Nothing is sorted:
    a document that lists [zeta] before [alpha] yields them in that
    order. *)
Theorem rows_in_document_order :
  (forall d,
     well_formed_document d = true ->
     exists rows,
       get_all_child_values d = Ok rows
       /\ Forall2 row_of rows
            (filter emits
               (nodes_of (assets d) ++ nodes_of (liabilities d)
                  ++ nodes_of (equity d))))
  /\ get_all_child_values descending_document
     = Ok [FlatRecord.mk (IdStr "Z9") "assets/assets" "zeta" 70;
           FlatRecord.mk (IdStr "A1") "assets/assets" "alpha" 30].
Proof.
  split; [|reflexivity].
  intros d Hwf. destruct (get_all_child_values_nodes d Hwf) as (rows & E & F).
  exists rows. split; [exact E|]. now rewrite <- document_nodes_sections.
Qed.

Lemma rows_in_document_order_witness :
  well_formed_document example_document = true
  /\ exists rows,
       get_all_child_values example_document = Ok rows
       /\ Forall2 row_of rows
            (filter emits
               (nodes_of (assets example_document)
                  ++ nodes_of (liabilities example_document)
                  ++ nodes_of (equity example_document))).
Proof.
  split;
    [reflexivity
    | apply (proj1 rows_in_document_order example_document); reflexivity].
Defined.


(** C2.  Once the three section trees have passed the per-node check,
    returning [va], [vl] and [ve], these are the totals the three roots
    declare, and [validate_balance_sheet_equation] raises if and only if
    [va == vl + ve] is false, the comparison being the [==] of floats with
    no tolerance; what it raises is the [AssertionError], and otherwise it
    returns. *)
Theorem balance_equation_is_strict
        (d : document) (a l e : node)
        (log0 log1 log2 log3 : logger) (va vl ve : float) :
  assets d = Some a -> liabilities d = Some l -> equity d = Some e ->
  validate_node_sum a log0 = (log1, Ok va) ->
  validate_node_sum l log1 = (log2, Ok vl) ->
  validate_node_sum e log2 = (log3, Ok ve) ->
  (value a = Some (Num va) /\ value l = Some (Num vl) /\ value e = Some (Num ve))
  /\ ((exists log' ex, validate_balance_sheet_equation d log0 = (log', Raise ex))
      <-> (va =? vl + ve)%float = false)
  /\ (forall log' ex,
        validate_balance_sheet_equation d log0 = (log', Raise ex) ->
        ex = AssertionError "Assets do not equal liabilities plus equity")
  /\ ((exists log', validate_balance_sheet_equation d log0 = (log', Ok va))
      <-> (va =? vl + ve)%float = true).
Proof.
  intros Ha Hl He Va Vl Ve.
  rewrite (validate_balance_sheet_equation_eq d a l e _ _ _ _ _ _ _ Ha Hl He Va Vl Ve).
  split.
  { repeat split; eapply validate_node_sum_declared; eassumption. }
  destruct (va =? vl + ve)%float; repeat split.
  - intros (log' & ex & H). discriminate.
  - discriminate.
  - intros log' ex H. discriminate.
  - intros _. now eexists.
  - intros _. now do 2 eexists.
  - intros log' ex [= _ <-]. reflexivity.
  - intros (log' & H). discriminate.
  - discriminate.
Qed.

Lemma balance_equation_is_strict_witness :
  (assets within_tolerance_document = Some within_tolerance_assets
   /\ liabilities within_tolerance_document
      = Some (group "liabilities" 40 [leaf "ap" 40 "L1"])
   /\ equity within_tolerance_document = Some (leaf "equity" 60 "E1")
   /\ validate_node_sum within_tolerance_assets [] = ([], Ok 100.0078125%float)
   /\ validate_node_sum (group "liabilities" 40 [leaf "ap" 40 "L1"]) []
      = ([], Ok 40%float)
   /\ validate_node_sum (leaf "equity" 60 "E1") [] = ([], Ok 60%float))
  /\ (value within_tolerance_assets = Some (Num 100.0078125)
      /\ value (group "liabilities" 40 [leaf "ap" 40 "L1"]) = Some (Num 40)
      /\ value (leaf "equity" 60 "E1") = Some (Num 60))
  /\ ((exists log' ex,
         validate_balance_sheet_equation within_tolerance_document []
         = (log', Raise ex))
      <-> (100.0078125 =? 40 + 60)%float = false)
  /\ (forall log' ex,
        validate_balance_sheet_equation within_tolerance_document []
        = (log', Raise ex) ->
        ex = AssertionError "Assets do not equal liabilities plus equity")
  /\ ((exists log',
         validate_balance_sheet_equation within_tolerance_document []
         = (log', Ok 100.0078125%float))
      <-> (100.0078125 =? 40 + 60)%float = true).
Proof.
  split;
    [repeat split
    | apply (balance_equation_is_strict within_tolerance_document
               within_tolerance_assets
               (group "liabilities" 40 [leaf "ap" 40 "L1"])
               (leaf "equity" 60 "E1") [] [] [] []);
      reflexivity].
Defined.



(** C4.  Whatever [validate_node_sum] returns is the value the node
    itself declares, [float(node["value"])].  A node without ["items"]
    returns it with no check and no log.  The recomputed sum is not what
    is returned: assets declared at 100.0078125 over accounts that add up
    to 100 return 100.0078125. *)
Theorem validate_node_sum_returns_declared_value :
  (forall n log log' r,
     validate_node_sum n log = (log', Ok r) -> value n = Some (Num r))
  /\ (forall nm f a log,
        validate_node_sum (Node nm (Some (Num f)) a None) log = (log, Ok f))
  /\ (validate_node_sum within_tolerance_assets [] = ([], Ok 100.0078125%float)
      /\ sum_gen validate_node_sum (children within_tolerance_assets) []
         = ([], Ok 100%float)).
Proof.
  split; [|split].
  - intros n log log' r. apply validate_node_sum_declared.
  - intros nm f a log. apply validate_node_sum_leaf.
  - split; reflexivity.
Qed.

Lemma validate_node_sum_returns_declared_value_witness :
  validate_node_sum within_tolerance_assets [] = ([], Ok 100.0078125%float)
  /\ value within_tolerance_assets = Some (Num 100.0078125).
Proof.
  split;
    [reflexivity
    | apply (proj1 validate_node_sum_returns_declared_value
               within_tolerance_assets [] [] 100.0078125%float);
      reflexivity].
Defined.

(** C8, as the program has it.  When the value [v] a node declares and
    the sum [s] of its children differ by more than the tolerance, the
    [ValueError] raised carries one thing of the node, its name, inside
    its message.  The declared value and the computed sum go, with the
    name, into the record logged at level ERROR just before the raise. *)
Theorem mismatch_error_names_the_node
        (nm : string) (v : float) (a : option json_id) (cs : list node)
        (log log1 : logger) (s : float) :
  sum_gen validate_node_sum cs log = (log1, Ok s) ->
  (tolerance <? abs (v - s))%float = true ->
  validate_node_sum (Node (Some nm) (Some (Num v)) a (Some cs)) log
  = (log1 ++ [LogRecord ERROR mismatch_log_text [AStr nm; AFloat v; AFloat s]],
     Raise (ValueError
              ("Balance sheet validation failed: " ++ nm
                 ++ " value does not match sum of its children")%string)).
Proof.
  intros Hs Hgt. now rewrite validate_node_sum_inner, Hs, Hgt.
Qed.

Lemma mismatch_error_names_the_node_witness :
  (sum_gen validate_node_sum (children overstated_assets) [] = ([], Ok 100%float)
   /\ (tolerance <? abs (100.5 - 100))%float = true)
  /\ validate_node_sum overstated_assets []
     = ([] ++ [LogRecord ERROR mismatch_log_text
                 [AStr "assets"; AFloat 100.5; AFloat 100]],
        Raise (ValueError
                 ("Balance sheet validation failed: " ++ "assets"
                    ++ " value does not match sum of its children")%string)).
Proof.
  split;
    [split; reflexivity
    | apply (mismatch_error_names_the_node
               "assets" 100.5%float None (children overstated_assets)
               [] [] 100%float);
      reflexivity].
Defined.

(** C8, as stated: two trees that declare different values over
    different sums, both beyond the tolerance, raise one and the same
    error; neither number can be read back from it. *)
Lemma mismatch_error_without_values_counterexample :
  snd (validate_node_sum overstated_assets [])
  = Raise (ValueError
             "Balance sheet validation failed: assets value does not match sum of its children")
  /\ snd (validate_node_sum understated_assets [])
     = snd (validate_node_sum overstated_assets [])
  /\ (declared overstated_assets = 100.5%float
      /\ sum_gen validate_node_sum (children overstated_assets) []
         = ([], Ok 100%float))
  /\ (declared understated_assets = 3%float
      /\ sum_gen validate_node_sum (children understated_assets) []
         = ([], Ok 7%float)).
Proof. repeat split. Qed.

(** C9.  What [validate_balance_sheet_equation] returns, when it
    returns, is the value the assets root declares.  It does return on a
    document whose three trees have exact sums and whose declared totals
    balance, logging its one success message. *)
Theorem equation_returns_declared_assets :
  (forall d log log' r,
     validate_balance_sheet_equation d log = (log', Ok r) ->
     exists a, assets d = Some a /\ value a = Some (Num r))
  /\ (forall d a l e log,
        assets d = Some a -> liabilities d = Some l -> equity d = Some e ->
        sums_exact a = true -> sums_exact l = true -> sums_exact e = true ->
        (declared a =? declared l + declared e)%float = true ->
        validate_balance_sheet_equation d log
        = (log ++ [LogRecord INFO "All parent-child sums validated successfully" []],
           Ok (declared a))).
Proof.
  split.
  - intros [[a|] l e] log log' r; [|discriminate].
    unfold validate_balance_sheet_equation, bind.
    cbn [assets liabilities equity getitem ret].
    destruct (validate_node_sum a log) as [log1 [va|ex]] eqn:Va; [|discriminate].
    destruct l as [l|]; cbn [getitem ret raise]; [|discriminate].
    destruct (validate_node_sum l log1) as [log2 [vl|ex]]; [|discriminate].
    destruct e as [e|]; cbn [getitem ret raise]; [|discriminate].
    destruct (validate_node_sum e log2) as [log3 [ve|ex]]; [|discriminate].
    destruct (va =? vl + ve)%float; [|discriminate].
    cbn. intros [= _ <-]. exists a. split; [reflexivity|].
    eapply validate_node_sum_declared, Va.
  - intros d a l e log Ha Hl He Xa Xl Xe Hbal.
    rewrite (validate_balance_sheet_equation_eq d a l e log log log log
               (declared a) (declared l) (declared e) Ha Hl He
               (validate_node_sum_exact a log Xa)
               (validate_node_sum_exact l log Xl)
               (validate_node_sum_exact e log Xe)).
    now rewrite Hbal.
Qed.

Lemma equation_returns_declared_assets_witness :
  validate_balance_sheet_equation example_document []
  = ([LogRecord INFO "All parent-child sums validated successfully" []],
     Ok 100%float)
  /\ exists a, assets example_document = Some a /\ value a = Some (Num 100).
Proof.
  split;
    [reflexivity
    | apply (proj1 equation_returns_declared_assets example_document
               [] [LogRecord INFO "All parent-child sums validated successfully" []]
               100%float);
      reflexivity].
Defined.
(** C5.  On a document (a JSON object) the schema check raises its
    [ValidationError] if and only if one of the keys [assets],
    [liabilities], [equity] is missing or holds something that is not an
    object, and passes if and only if all three hold objects.  What the
    three objects contain is not looked at: they pass whatever their
    members are.  A value that is not an object at all is refused. *)
Theorem schema_checks_top_level_only :
  (forall members log,
     (exists log',
        validate_balance_sheet_json_schema (JObject members) log
        = (log', Raise ValidationError))
     <-> (exists key,
            In key section_keys
            /\ (lookup key members = None
                \/ exists v, lookup key members = Some v /\ is_object v = false)))
  /\ (forall members log,
        validate_balance_sheet_json_schema (JObject members) log
        = (log ++ [LogRecord INFO "Balance sheet json schema validation passed" []],
           Ok tt)
        <-> (forall key, In key section_keys ->
                         exists ms, lookup key members = Some (JObject ms)))
  /\ (forall a l e rest log,
        validate_balance_sheet_json_schema
          (JObject (("assets", JObject a) :: ("liabilities", JObject l)
                      :: ("equity", JObject e) :: rest))
          log
        = (log ++ [LogRecord INFO "Balance sheet json schema validation passed" []],
           Ok tt))
  /\ (forall data log,
        is_object data = false ->
        validate_balance_sheet_json_schema data log = (log, Raise ValidationError)).
Proof.
  split; [|split; [|split]].
  - intros members log. rewrite validate_schema_eq, is_valid_balance_sheet.
    split.
    + intros (log' & H).
      destruct (object_at "assets" members) eqn:Ha;
        [destruct (object_at "liabilities" members) eqn:Hl;
         [destruct (object_at "equity" members) eqn:He; [discriminate|]|]|].
      * exists "equity". split; [cbn; tauto | now apply object_at_false].
      * exists "liabilities". split; [cbn; tauto | now apply object_at_false].
      * exists "assets". split; [cbn; tauto | now apply object_at_false].
    + intros (key & Hin & Hbad). apply object_at_false in Hbad.
      exists log.
      destruct Hin as [<- | [<- | [<- | []]]]; rewrite Hbad;
        rewrite ?andb_false_r; reflexivity.
  - intros members log. rewrite validate_schema_eq, is_valid_balance_sheet.
    split.
    + intros H key Hin. apply object_at_true.
      destruct (object_at "assets" members) eqn:Ha;
        [destruct (object_at "liabilities" members) eqn:Hl;
         [destruct (object_at "equity" members) eqn:He|]|];
        try discriminate.
      destruct Hin as [<- | [<- | [<- | []]]]; assumption.
    + intros H.
      assert (Ha : object_at "assets" members = true)
        by (apply object_at_true, H; cbn; tauto).
      assert (Hl : object_at "liabilities" members = true)
        by (apply object_at_true, H; cbn; tauto).
      assert (He : object_at "equity" members = true)
        by (apply object_at_true, H; cbn; tauto).
      now rewrite Ha, Hl, He.
  - intros a l e rest log. reflexivity.
  - intros data log Hobj. rewrite validate_schema_eq.
    destruct data; try reflexivity. discriminate.
Qed.

Lemma schema_checks_top_level_only_witness :
  is_object (JArray [JStr "assets"; JStr "liabilities"; JStr "equity"]) = false
  /\ validate_balance_sheet_json_schema
       (JArray [JStr "assets"; JStr "liabilities"; JStr "equity"]) []
     = ([], Raise ValidationError).
Proof.
  split;
    [reflexivity
    | apply (proj2 (proj2 (proj2 schema_checks_top_level_only))
               (JArray [JStr "assets"; JStr "liabilities"; JStr "equity"]) []);
      reflexivity].
Defined.

(** * Further properties *)

(** ** The flattener on any document *)

Lemma flattenable_eq (n : node) :
  flattenable n
  = (if emits n then has_name n && numeric (value n) else true)
    && (match children n with [] => true | _ :: _ => has_name n end
        && forallb flattenable (children n)).
Proof.
  destruct n as [nm v a [cs|]];
    cbn [flattenable children items value forallb andb]; reflexivity.
Qed.

Lemma visit_outcome (n : node) (chain : list string) (rows : list FlatRecord.t) :
  if (if emits n then has_name n && numeric (value n) else true)
  then exists out,
         visit n (String.concat "/" chain) rows = (rows ++ out, Ok tt)
         /\ Forall2 row_at out (filter (fun p => emits (snd p)) [(chain, n)])
  else exists e, visit n (String.concat "/" chain) rows = (rows, Raise e).
Proof.
  destruct n as [nm v a its].
  cbn [filter snd]. unfold visit, emits, has_name. cbn [value account_id name].
  destruct v as [v|]; [destruct a as [a|]; [destruct (is_not_None a) eqn:Ha|]|];
    try (exists []; rewrite app_nil_r; split; [reflexivity | constructor]).
  destruct nm as [s|]; [destruct v as [f|e]|]; cbn.
  - eexists. split; [reflexivity|].
    constructor; [repeat split | constructor].
  - eexists. reflexivity.
  - eexists. reflexivity.
Qed.

Lemma for_each_descend_named (s : string) (chain : list string) (cs : list node) :
  chain <> [] ->
  truthy (String.concat "/" chain) = true ->
  Forall
    (fun c => forall chain' rows,
                chain' <> [] -> truthy (String.concat "/" chain') = true ->
                flattens_at c chain' rows)
    cs ->
  forall rows,
    if forallb flattenable cs
    then exists out,
           for_each (descend (Some s) (String.concat "/" chain)) cs rows
           = (rows ++ out, Ok tt)
           /\ Forall2 row_at out
                (filter (fun p => emits (snd p))
                   (flat_map (walk (chain ++ [s])) cs))
    else exists rows' e,
           for_each (descend (Some s) (String.concat "/" chain)) cs rows
           = (rows', Raise e).
Proof.
  intros Hne Htr Hall. induction Hall as [|c cs Hc _ IH]; intros rows.
  - exists []. rewrite app_nil_r. split; [reflexivity | constructor].
  - assert (Hstep : forall st,
               for_each (descend (Some s) (String.concat "/" chain)) (c :: cs) st
               = match traverse_node c (String.concat "/" (chain ++ [s])) st with
                 | (st', Ok _) =>
                     for_each (descend (Some s) (String.concat "/" chain)) cs st'
                 | (st', Raise e) => (st', Raise e)
                 end).
    { intros st. cbn [for_each]. unfold bind at 1. unfold descend at 1.
      rewrite Htr. unfold bind at 1. unfold bind at 1. cbn [getitem ret].
      now rewrite <- concat_snoc by assumption. }
    rewrite Hstep.
    specialize (Hc (chain ++ [s]) rows). unfold flattens_at in Hc.
    cbn [forallb]. destruct (flattenable c).
    + destruct Hc as (out1 & E1 & F1).
      { now destruct chain. }
      { rewrite concat_snoc by assumption. now apply truthy_append. }
      rewrite E1. specialize (IH (rows ++ out1)). cbn [andb].
      destruct (forallb flattenable cs).
      * destruct IH as (out2 & E2 & F2). exists (out1 ++ out2).
        rewrite E2, app_assoc. split; [reflexivity|].
        cbn [flat_map]. rewrite filter_app. now apply Forall2_app.
      * exact IH.
    + destruct Hc as (rows' & e & E).
      { now destruct chain. }
      { rewrite concat_snoc by assumption. now apply truthy_append. }
      rewrite E. now exists rows', e.
Qed.

Lemma traverse_node_outcome_step (n : node) :
  Forall
    (fun c => forall chain' rows,
                chain' <> [] -> truthy (String.concat "/" chain') = true ->
                flattens_at c chain' rows)
    (children n) ->
  forall chain rows,
    chain <> [] -> truthy (String.concat "/" chain) = true ->
    flattens_at n chain rows.
Proof.
  intros IH chain rows Hne Htr. unfold flattens_at.
  rewrite flattenable_eq, traverse_node_eq. unfold bind.
  pose proof (visit_outcome n chain rows) as Hv.
  destruct (if emits n then has_name n && numeric (value n) else true).
  - destruct Hv as (out1 & E1 & F1). rewrite E1. cbn [andb].
    assert (W : walk chain n = [(chain, n)] ++ flat_map (walk (chain ++ [label n])) (children n)).
    { destruct n as [nm v a [cs|]]; reflexivity. }
    destruct (name n) as [s|] eqn:Hn.
    + assert (Hl : label n = s) by (unfold label; now rewrite Hn).
      assert (Hh : has_name n = true) by (unfold has_name; now rewrite Hn).
      pose proof (for_each_descend_named s chain (children n) Hne Htr IH (rows ++ out1)) as Hf.
      replace (match children n with [] => true | _ :: _ => has_name n end) with true
        by (rewrite Hh; now destruct (children n)).
      cbn [andb]. destruct (forallb flattenable (children n)).
      * destruct Hf as (out2 & E2 & F2). exists (out1 ++ out2).
        rewrite E2, app_assoc. split; [reflexivity|].
        rewrite W, filter_app, Hl. now apply Forall2_app.
      * exact Hf.
    + assert (Hh : has_name n = false) by (unfold has_name; now rewrite Hn).
      rewrite Hh. destruct (children n) as [|c cs] eqn:Hc.
      * cbn [flat_map] in W. rewrite app_nil_r in W.
        exists out1. cbn [andb for_each ret].
        split; [reflexivity | now rewrite W].
      * cbn [andb for_each]. unfold bind, descend. rewrite Htr. cbn.
        now do 2 eexists.
  - destruct Hv as (e & E). rewrite E. now do 2 eexists.
Qed.

Lemma traverse_node_outcome (n : node) :
  forall chain rows,
    chain <> [] -> truthy (String.concat "/" chain) = true ->
    flattens_at n chain rows.
Proof.
  induction n as [nm v a | nm v a cs IH] using node_ind;
    apply traverse_node_outcome_step.
  - constructor.
  - exact IH.
Qed.

Lemma for_each_sections_outcome (secs : list (string * option node)) :
  Forall (fun sec => truthy (fst sec) = true) secs ->
  forall rows,
    if forallb (fun sec => flattenable (snd sec)) (present secs)
    then exists out,
           for_each visit_section secs rows = (rows ++ out, Ok tt)
           /\ Forall2 row_at out
                (filter (fun p => emits (snd p))
                   (flat_map (fun sec => walk [fst sec] (snd sec)) (present secs)))
    else exists rows' e, for_each visit_section secs rows = (rows', Raise e).
Proof.
  induction 1 as [|[key [n|]] secs Hkey _ IH]; intros rows.
  - exists []. rewrite app_nil_r. split; [reflexivity | constructor].
  - cbn [present flat_map fst snd app forallb for_each].
    unfold bind, visit_section at 1 3. cbn [fst snd].
    pose proof (traverse_node_outcome n [key] rows) as Hn.
    unfold flattens_at in Hn. cbn [String.concat] in Hn.
    destruct (flattenable n).
    + destruct Hn as (out1 & E1 & F1); [discriminate | exact Hkey |].
      rewrite E1. specialize (IH (rows ++ out1)). cbn [andb].
      fold (present secs).
      destruct (forallb (fun sec => flattenable (snd sec)) (present secs)).
      * destruct IH as (out2 & E2 & F2). exists (out1 ++ out2).
        rewrite E2, app_assoc. split; [reflexivity|].
        rewrite filter_app. now apply Forall2_app.
      * exact IH.
    + destruct Hn as (rows' & e & E); [discriminate | exact Hkey |].
      rewrite E. now exists rows', e.
  - cbn [present flat_map fst snd app for_each].
    unfold bind, visit_section at 1 3. cbn [snd ret]. apply IH.
Qed.

Lemma get_all_child_values_outcome (d : document) :
  if flattenable_document d
  then exists rows,
         get_all_child_values d = Ok rows
         /\ Forall2 row_at rows
              (filter (fun p => emits (snd p)) (document_walk d))
  else exists e, get_all_child_values d = Raise e.
Proof.
  pose proof (for_each_sections_outcome (sections d) (section_keys_truthy d) [])
    as H.
  unfold flattenable_document, present_sections, document_walk.
  rewrite get_all_child_values_eq.
  destruct (forallb (fun sec => flattenable (snd sec)) (present (sections d))).
  - destruct H as (out & E & F). exists out. rewrite E. now split.
  - destruct H as (rows' & e & E). exists e. now rewrite E.
Qed.

Lemma get_all_child_values_rows (d : document) (rows : list FlatRecord.t) :
  get_all_child_values d = Ok rows ->
  Forall2 row_at rows (filter (fun p => emits (snd p)) (document_walk d)).
Proof.
  intros H. pose proof (get_all_child_values_outcome d) as O.
  destruct (flattenable_document d).
  - destruct O as (rows' & E & F). rewrite E in H. now injection H as <-.
  - destruct O as (e & E). rewrite E in H. discriminate.
Qed.

Lemma Forall2_Forall_l {A B} (R : A -> B -> Prop) (Q : B -> Prop) (T : A -> Prop)
      (l1 : list A) (l2 : list B) :
  (forall x y, R x y -> Q y -> T x) ->
  Forall2 R l1 l2 -> Forall Q l2 -> Forall T l1.
Proof.
  intros HT. induction 1 as [|a b l1 l2 Hab _ IH]; intros HQ; constructor.
  - inversion HQ; subst. eapply HT; eassumption.
  - inversion HQ; subst. now apply IH.
Qed.

Lemma walk_chain_extends (n : node) :
  forall chain p, In p (walk chain n) -> exists rest, fst p = chain ++ rest.
Proof.
  induction n as [nm v a | nm v a cs IH] using node_ind; intros chain p Hp.
  - destruct Hp as [<- | []]. exists []. cbn. now rewrite app_nil_r.
  - destruct Hp as [<- | Hp].
    + exists []. cbn. now rewrite app_nil_r.
    + apply in_flat_map in Hp. destruct Hp as (c & Hc & Hp).
      rewrite Forall_forall in IH.
      destruct (IH c Hc _ p Hp) as (rest & E).
      exists (label (Node nm v a (Some cs)) :: rest).
      rewrite E, <- app_assoc. reflexivity.
Qed.

Lemma present_sections_keys (d : document) (key : string) (n : node) :
  In (key, n) (present_sections d) -> In key section_keys.
Proof.
  destruct d as [[a|] [l|] [e|]]; cbn;
    intros H; repeat destruct H as [[= <- _] | H]; tauto.
Qed.

Lemma document_walk_chain (d : document) (p : list string * node) :
  In p (document_walk d) ->
  exists key rest, In key section_keys /\ fst p = key :: rest.
Proof.
  intros Hp. apply in_flat_map in Hp. destruct Hp as ([key n] & Hsec & Hp).
  destruct (walk_chain_extends n [key] p Hp) as (rest & E).
  exists key, rest. split; [eapply present_sections_keys; eassumption | exact E].
Qed.

Lemma prefix_append (a b : string) : prefix a (a ++ b)%string = true.
Proof.
  induction a as [|c a IH]; cbn.
  - now destruct b.
  - destruct (ascii_dec c c); [exact IH | contradiction].
Qed.

Lemma prefix_concat (sep key : string) (rest : list string) :
  prefix key (String.concat sep (key :: rest)) = true.
Proof.
  destruct rest as [|x rest].
  - cbn [String.concat]. induction key as [|c key IH]; cbn; [reflexivity|].
    destruct (ascii_dec c c); [exact IH | contradiction].
  - change (String.concat sep (key :: x :: rest))
      with (key ++ sep ++ String.concat sep (x :: rest))%string.
    apply prefix_append.
Qed.

Lemma prefix_truthy (key s : string) :
  truthy key = true -> prefix key s = true -> truthy s = true.
Proof. destruct key, s; cbn; congruence. Qed.

Lemma section_key_truthy (key : string) :
  In key section_keys -> truthy key = true.
Proof. intros [<- | [<- | [<- | []]]]; reflexivity. Qed.

(** X1.  [get_all_child_values] returns a table exactly for the documents
    in which every node that emits a row has a name and a numeric value,
    and every node with at least one child has a name; on any other
    document it raises. *)
Theorem flattener_returns_iff_flattenable (d : document) :
  ((exists rows, get_all_child_values d = Ok rows)
   <-> flattenable_document d = true)
  /\ ((exists e, get_all_child_values d = Raise e)
      <-> flattenable_document d = false).
Proof.
  pose proof (get_all_child_values_outcome d) as O.
  destruct (flattenable_document d).
  - destruct O as (rows & E & _). rewrite E. repeat split.
    + intros _. now exists rows.
    + intros (e & H). discriminate.
    + discriminate.
  - destruct O as (e & E). rewrite E. repeat split.
    + intros (rows & H). discriminate.
    + discriminate.
    + intros _. now exists e.
Qed.

(** X2.  Whatever document the flattener returns a table for, the rows
    are, one for one and in order, the emitting nodes of the depth-first
    walk, each with its name, [float] of its value, its account
    identifier, and the chain of section key and ancestor names joined by
    ["/"] as its path. *)
Theorem flattener_rows_on_any_document (d : document) (rows : list FlatRecord.t) :
  get_all_child_values d = Ok rows ->
  Forall2 row_at rows (filter (fun p => emits (snd p)) (document_walk d))
  /\ List.length rows = List.length (filter emits (document_nodes d)).
Proof.
  intros H. pose proof (get_all_child_values_rows d rows H) as F.
  split; [exact F|].
  rewrite (Forall2_length F), <- document_walk_nodes, filter_map_snd.
  now rewrite length_map.
Qed.

Lemma flattener_rows_on_any_document_witness :
  get_all_child_values descending_document
  = Ok [FlatRecord.mk (IdStr "Z9") "assets/assets" "zeta" 70;
        FlatRecord.mk (IdStr "A1") "assets/assets" "alpha" 30]
  /\ (Forall2 row_at
        [FlatRecord.mk (IdStr "Z9") "assets/assets" "zeta" 70;
         FlatRecord.mk (IdStr "A1") "assets/assets" "alpha" 30]
        (filter (fun p => emits (snd p)) (document_walk descending_document))
      /\ List.length
           [FlatRecord.mk (IdStr "Z9") "assets/assets" "zeta" 70;
            FlatRecord.mk (IdStr "A1") "assets/assets" "alpha" 30]
         = List.length (filter emits (document_nodes descending_document))).
Proof.
  split;
    [reflexivity
    | apply (flattener_rows_on_any_document descending_document); reflexivity].
Defined.

(** X3.  No row of the table has a null account identifier, as the
    docstring of [get_all_child_values] promises. *)
Theorem rows_have_account_ids (d : document) (rows : list FlatRecord.t) :
  get_all_child_values d = Ok rows ->
  Forall (fun r => is_not_None (FlatRecord.account_id r) = true) rows.
Proof.
  intros H. pose proof (get_all_child_values_rows d rows H) as F.
  eapply Forall2_Forall_l with (Q := fun p => emits (snd p) = true);
    [|exact F|].
  - intros r p (_ & _ & _ & Hid) Hem.
    unfold emits in Hem. rewrite Hid in Hem.
    destruct (value (snd p)); [exact Hem | discriminate].
  - apply Forall_forall. intros p Hp. apply filter_In in Hp. apply Hp.
Qed.

Lemma rows_have_account_ids_witness :
  get_all_child_values example_document
  = Ok [FlatRecord.mk (IdStr "A1") "assets/assets" "cash" 60;
        FlatRecord.mk (IdStr "A2") "assets/assets" "ar" 40;
        FlatRecord.mk (IdStr "L1") "liabilities/liabilities" "ap" 40;
        FlatRecord.mk (IdStr "E1") "equity" "equity" 60]
  /\ Forall (fun r => is_not_None (FlatRecord.account_id r) = true)
       [FlatRecord.mk (IdStr "A1") "assets/assets" "cash" 60;
        FlatRecord.mk (IdStr "A2") "assets/assets" "ar" 40;
        FlatRecord.mk (IdStr "L1") "liabilities/liabilities" "ap" 40;
        FlatRecord.mk (IdStr "E1") "equity" "equity" 60].
Proof.
  split;
    [reflexivity | apply (rows_have_account_ids example_document); reflexivity].
Defined.

(** X4.  Every path of the table begins with one of the three section
    keys and so is never empty: the branch of [traverse_node] that would
    start a path from a node's name alone is never the one that built a
    row's path. *)
Theorem paths_start_with_section_key (d : document) (rows : list FlatRecord.t) :
  get_all_child_values d = Ok rows ->
  Forall
    (fun r =>
       truthy (FlatRecord.path r) = true
       /\ exists key, In key section_keys /\ prefix key (FlatRecord.path r) = true)
    rows.
Proof.
  intros H. pose proof (get_all_child_values_rows d rows H) as F.
  eapply Forall2_Forall_l
    with (Q := fun p => exists key rest,
                         In key section_keys /\ fst p = key :: rest);
    [|exact F|].
  - intros r p (Hpath & _) (key & rest & Hkey & Hchain).
    assert (Hpre : prefix key (FlatRecord.path r) = true).
    { rewrite Hpath, Hchain. apply prefix_concat. }
    split.
    + apply (prefix_truthy key); [apply section_key_truthy, Hkey | exact Hpre].
    + now exists key.
  - apply Forall_forall. intros p Hp. apply filter_In in Hp.
    apply (document_walk_chain d), Hp.
Qed.

Lemma paths_start_with_section_key_witness :
  get_all_child_values liabilities_only
  = Ok [FlatRecord.mk (IdStr "L1") "liabilities/liabilities" "ap" 40]
  /\ Forall
       (fun r =>
          truthy (FlatRecord.path r) = true
          /\ exists key, In key section_keys /\ prefix key (FlatRecord.path r) = true)
       [FlatRecord.mk (IdStr "L1") "liabilities/liabilities" "ap" 40].
Proof.
  split;
    [reflexivity
    | apply (paths_start_with_section_key liabilities_only); reflexivity].
Defined.

(** X5.  A traversal never drops or rewrites a row collected before it
    began, and what it adds and whether it raises do not depend on those
    rows: started from [rows] it ends with [rows] followed by what it
    would have collected from the empty list. *)
Theorem traversal_only_appends (n : node) (current_path : string)
        (rows : list FlatRecord.t) :
  traverse_node n current_path rows
  = (rows ++ fst (traverse_node n current_path []),
     snd (traverse_node n current_path [])).
Proof. apply appends_traverse_node. Qed.

(** ** The validator on any tree *)

Lemma sum_from_outcome (cs : list node) :
  Forall
    (fun c => forall log,
       if sums_within c
       then validate_node_sum c log = (log, Ok (declared c))
       else exists log' e, validate_node_sum c log = (log', Raise e))
    cs ->
  forall acc log,
    if forallb sums_within cs
    then sum_from validate_node_sum acc cs log
         = (log, Ok (fold_left PrimFloat.add (map declared cs) acc))
    else exists log' e,
           sum_from validate_node_sum acc cs log = (log', Raise e).
Proof.
  induction 1 as [|c cs Hc _ IH]; intros acc log; [reflexivity|].
  cbn [forallb sum_from map fold_left]. unfold bind.
  specialize (Hc log). destruct (sums_within c).
  - rewrite Hc. cbn [andb]. apply IH.
  - destruct Hc as (log' & e & E). rewrite E. now exists log', e.
Qed.

Lemma validate_node_sum_outcome (n : node) :
  forall log,
    if sums_within n
    then validate_node_sum n log = (log, Ok (declared n))
    else exists log' e, validate_node_sum n log = (log', Raise e).
Proof.
  induction n as [nm v a | nm v a cs IH] using node_ind; intros log.
  - destruct v as [[f|e]|]; cbn [sums_within];
      [reflexivity | now do 2 eexists | now do 2 eexists].
  - destruct v as [[f|e]|]; cbn [sums_within];
      [| now do 2 eexists | now do 2 eexists].
    rewrite validate_node_sum_inner. unfold sum_gen.
    pose proof (sum_from_outcome cs IH 0%float log) as Hs.
    destruct (forallb sums_within cs); cbn [andb].
    + rewrite Hs. fold (float_sum (map declared cs)).
      destruct (tolerance <? abs (f - float_sum (map declared cs)))%float;
        cbn [negb]; [|reflexivity].
      destruct nm; now do 2 eexists.
    + destruct Hs as (log' & e & E). rewrite E. now exists log', e.
Qed.

Lemma validate_balance_sheet_equation_outcome (d : document) (log : logger) :
  if balanced d
  then exists a,
         assets d = Some a
         /\ validate_balance_sheet_equation d log
            = (log ++ [LogRecord INFO "All parent-child sums validated successfully" []],
               Ok (declared a))
  else exists log' e,
         validate_balance_sheet_equation d log = (log', Raise e).
Proof.
  destruct d as [[a|] l e]; unfold balanced; cbn [assets liabilities equity];
    [|now do 2 eexists].
  unfold validate_balance_sheet_equation, bind.
  cbn [assets liabilities equity getitem ret].
  pose proof (validate_node_sum_outcome a log) as Ha.
  destruct l as [l|];
    [|destruct (sums_within a);
      [rewrite Ha; now do 2 eexists
      | destruct Ha as (log' & ex & E); rewrite E; now do 2 eexists]].
  destruct e as [e|];
    [|destruct (sums_within a);
      [rewrite Ha; cbn [getitem ret];
       destruct (validate_node_sum l log) as [log2 [vl|ex]]; now do 2 eexists
      | destruct Ha as (log' & ex & E); rewrite E; now do 2 eexists]].
  destruct (sums_within a); cbn [andb];
    [rewrite Ha | destruct Ha as (log' & ex & E); rewrite E; now do 2 eexists].
  cbn [getitem ret].
  pose proof (validate_node_sum_outcome l log) as Hl.
  destruct (sums_within l); cbn [andb];
    [rewrite Hl | destruct Hl as (log' & ex & E); rewrite E; now do 2 eexists].
  pose proof (validate_node_sum_outcome e log) as He.
  destruct (sums_within e); cbn [andb];
    [rewrite He | destruct He as (log' & ex & E); rewrite E; now do 2 eexists].
  destruct (declared a =? declared l + declared e)%float.
  - exists a. split; reflexivity.
  - now do 2 eexists.
Qed.

(** X6.  [validate_node_sum] returns exactly on the trees in which every
    node declares a number and every node with ["items"] declares one
    within 0.01 of the sum of what its children declare; it then returns
    the declared value and has logged nothing.  Names play no part. *)
Theorem validator_returns_iff_sums_within (n : node) (log : logger) :
  ((exists log' r, validate_node_sum n log = (log', Ok r))
   <-> sums_within n = true)
  /\ (forall log' r,
        validate_node_sum n log = (log', Ok r) ->
        log' = log /\ r = declared n).
Proof.
  pose proof (validate_node_sum_outcome n log) as O.
  destruct (sums_within n).
  - rewrite O. repeat split.
    + intros _. now do 2 eexists.
    + now injection H as <- _.
    + now injection H as _ <-.
  - destruct O as (log1 & e & E). rewrite E. repeat split.
    + intros (log' & r & H). discriminate.
    + discriminate.
    + discriminate.
    + discriminate.
Qed.

(** X8.  [validate_balance_sheet_equation] returns exactly on the
    documents that have the three sections, whose three trees the
    validator accepts, and whose declared totals satisfy
    [assets == liabilities + equity]; it then returns the declared
    assets total and has logged its success message and nothing else. *)
Theorem equation_returns_iff_balanced (d : document) (log : logger) :
  ((exists log' r, validate_balance_sheet_equation d log = (log', Ok r))
   <-> balanced d = true)
  /\ (forall log' r,
        validate_balance_sheet_equation d log = (log', Ok r) ->
        log' = log ++ [LogRecord INFO "All parent-child sums validated successfully" []]
        /\ exists a, assets d = Some a /\ r = declared a).
Proof.
  pose proof (validate_balance_sheet_equation_outcome d log) as O.
  destruct (balanced d).
  - destruct O as (a & Ha & E). rewrite E. repeat split.
    + intros _. now do 2 eexists.
    + now injection H as <- _.
    + injection H as _ <-. now exists a.
  - destruct O as (log1 & e & E). rewrite E. repeat split.
    + intros (log' & r & H). discriminate.
    + discriminate.
    + discriminate.
    + discriminate.
Qed.

(** ** What the validator logs *)

Lemma sum_from_log (cs : list node) :
  Forall
    (fun c => forall log,
       fst (validate_node_sum c log) = log
       \/ exists nm v s m,
            validate_node_sum c log
            = (log ++ [mismatch_record nm v s],
               Raise (ValueError (mismatch_message nm)))
            /\ (tolerance <? abs (v - s))%float = true
            /\ In m (preorder c)
            /\ name m = Some nm /\ value m = Some (Num v))
    cs ->
  forall acc log,
    fst (sum_from validate_node_sum acc cs log) = log
    \/ exists nm v s m,
         sum_from validate_node_sum acc cs log
         = (log ++ [mismatch_record nm v s],
            Raise (ValueError (mismatch_message nm)))
         /\ (tolerance <? abs (v - s))%float = true
         /\ In m (flat_map preorder cs)
         /\ name m = Some nm /\ value m = Some (Num v).
Proof.
  induction 1 as [|c cs Hc _ IH]; intros acc log; [now left|].
  cbn [sum_from flat_map]. unfold bind.
  destruct (Hc log) as [E | (nm & v & s & m & E & Hgt & Hin & Hm)].
  - destruct (validate_node_sum c log) as [log1 [r|e]]; cbn [fst] in E; subst log1.
    + destruct (IH (acc + r)%float log)
        as [E' | (nm & v & s & m & E' & Hgt & Hin & Hm)]; [now left|].
      right. exists nm, v, s, m. repeat split; try tauto.
      apply in_or_app. now right.
    + now left.
  - right. rewrite E. exists nm, v, s, m. repeat split; try tauto.
    apply in_or_app. now left.
Qed.

Lemma validate_node_sum_log (n : node) :
  forall log,
    fst (validate_node_sum n log) = log
    \/ exists nm v s m,
         validate_node_sum n log
         = (log ++ [mismatch_record nm v s],
            Raise (ValueError (mismatch_message nm)))
         /\ (tolerance <? abs (v - s))%float = true
         /\ In m (preorder n)
         /\ name m = Some nm /\ value m = Some (Num v).
Proof.
  induction n as [nm v a | nm v a cs IH] using node_ind; intros log.
  - left. destruct v as [[f|e]|]; reflexivity.
  - destruct v as [[f|e]|]; [|now left | now left].
    rewrite validate_node_sum_inner. unfold sum_gen.
    destruct (sum_from_log cs IH 0%float log)
      as [E | (nm' & v' & s' & m & E & Hgt & Hin & Hm)].
    + destruct (sum_from validate_node_sum 0 cs log) as [log1 [s|e]];
        cbn [fst] in E; subst log1; [|now left].
      destruct (tolerance <? abs (f - s))%float eqn:Hgt; [|now left].
      destruct nm as [x|]; [|now left].
      right. exists x, f, s, (Node (Some x) (Some (Num f)) a (Some cs)).
      repeat split; try assumption. now left.
    + right. rewrite E. exists nm', v', s', m.
      repeat split; try tauto. now right.
Qed.


Lemma validate_node_sum_raise_log (n : node) (log log' : logger) (ex : exn) :
  validate_node_sum n log = (log', Raise ex) ->
  log' = log
  \/ exists nm v s,
       log' = log ++ [mismatch_record nm v s]
       /\ ex = ValueError (mismatch_message nm).
Proof.
  intros H.
  destruct (validate_node_sum_log n log) as [E | (nm & v & s & m & E & _)].
  - left. rewrite H in E. now cbn in E.
  - right. rewrite H in E. injection E as -> ->. now exists nm, v, s.
Qed.

Lemma validate_node_sum_ok_log (n : node) (log log' : logger) (r : float) :
  validate_node_sum n log = (log', Ok r) -> log' = log.
Proof.
  intros H.
  destruct (validate_node_sum_log n log) as [E | (nm & v & s & m & E & _)].
  - rewrite H in E. now cbn in E.
  - rewrite H in E. discriminate.
Qed.

(** X9.  When [validate_balance_sheet_equation] raises, the log is as it
    was, or has grown by the one mismatch record and the error is the
    [ValueError] naming the same node.  So a missing section, a value
    that is not a number and the failed balance equation itself (the
    [AssertionError]) are raised without a word in the log. *)
Theorem equation_failures_and_the_log
        (d : document) (log log' : logger) (ex : exn) :
  validate_balance_sheet_equation d log = (log', Raise ex) ->
  (log' = log
   \/ exists nm v s,
        log' = log ++ [mismatch_record nm v s]
        /\ ex = ValueError (mismatch_message nm))
  /\ (forall m, ex = AssertionError m -> log' = log)
  /\ (forall k, ex = KeyError k -> log' = log).
Proof.
  intros H.
  assert (D : log' = log
              \/ exists nm v s,
                   log' = log ++ [mismatch_record nm v s]
                   /\ ex = ValueError (mismatch_message nm)).
  { revert H. destruct d as [a l e].
    unfold validate_balance_sheet_equation, bind.
    cbn [assets liabilities equity].
    destruct a as [a|]; cbn [getitem ret raise]; [|intros [= <- <-]; now left].
    destruct (validate_node_sum a log) as [log1 [va|e1]] eqn:Va;
      [|intros [= <- <-]; eapply validate_node_sum_raise_log, Va].
    apply validate_node_sum_ok_log in Va. subst log1.
    destruct l as [l|]; cbn [getitem ret raise]; [|intros [= <- <-]; now left].
    destruct (validate_node_sum l log) as [log2 [vl|e2]] eqn:Vl;
      [|intros [= <- <-]; eapply validate_node_sum_raise_log, Vl].
    apply validate_node_sum_ok_log in Vl. subst log2.
    destruct e as [e|]; cbn [getitem ret raise]; [|intros [= <- <-]; now left].
    destruct (validate_node_sum e log) as [log3 [ve|e3]] eqn:Ve;
      [|intros [= <- <-]; eapply validate_node_sum_raise_log, Ve].
    apply validate_node_sum_ok_log in Ve. subst log3.
    destruct (va =? vl + ve)%float; cbn; [discriminate|].
    intros [= <- <-]. now left. }
  split; [exact D | split].
  - intros m ->. destruct D as [D | (nm & v & s & _ & D)];
      [exact D | discriminate].
  - intros k ->. destruct D as [D | (nm & v & s & _ & D)];
      [exact D | discriminate].
Qed.

Lemma equation_failures_and_the_log_witness :
  validate_balance_sheet_equation within_tolerance_document []
  = ([], Raise (AssertionError "Assets do not equal liabilities plus equity"))
  /\ (([] = @nil log_record
       \/ exists nm v s,
            [] = [] ++ [mismatch_record nm v s]
            /\ AssertionError "Assets do not equal liabilities plus equity"
               = ValueError (mismatch_message nm))
      /\ (forall m,
            AssertionError "Assets do not equal liabilities plus equity"
            = AssertionError m -> [] = @nil log_record)
      /\ (forall k,
            AssertionError "Assets do not equal liabilities plus equity"
            = KeyError k -> [] = @nil log_record)).
Proof.
  split;
    [reflexivity
    | apply (equation_failures_and_the_log within_tolerance_document [] []
               (AssertionError "Assets do not equal liabilities plus equity"));
      reflexivity].
Defined.

(** ** Missing sections, empty lists, and the two passes together *)

(** X10.  Unlike the flattener, the validator needs all three sections:
    a missing key is a [KeyError] naming it, raised in the order assets,
    liabilities, equity, once the sections before it have validated, and
    with nothing logged. *)
Theorem validator_requires_every_section :
  (forall d log,
     assets d = None ->
     validate_balance_sheet_equation d log = (log, Raise (KeyError "assets")))
  /\ (forall d a log,
        assets d = Some a -> sums_within a = true ->
        liabilities d = None ->
        validate_balance_sheet_equation d log
        = (log, Raise (KeyError "liabilities")))
  /\ (forall d a l log,
        assets d = Some a -> sums_within a = true ->
        liabilities d = Some l -> sums_within l = true ->
        equity d = None ->
        validate_balance_sheet_equation d log
        = (log, Raise (KeyError "equity"))).
Proof.
  split; [|split].
  - intros [a l e] log Ha. cbn in Ha. subst a. reflexivity.
  - intros [a' l' e] a log Ha Xa Hl. cbn in Ha, Hl. subst a' l'.
    unfold validate_balance_sheet_equation, bind.
    cbn [assets liabilities equity getitem ret].
    pose proof (validate_node_sum_outcome a log) as O. rewrite Xa in O.
    now rewrite O.
  - intros [a' l' e'] a l log Ha Xa Hl Xl He. cbn in Ha, Hl, He. subst a' l' e'.
    unfold validate_balance_sheet_equation, bind.
    cbn [assets liabilities equity getitem ret].
    pose proof (validate_node_sum_outcome a log) as Oa. rewrite Xa in Oa.
    pose proof (validate_node_sum_outcome l log) as Ol. rewrite Xl in Ol.
    rewrite Oa. cbn [getitem ret]. now rewrite Ol.
Qed.

Lemma validator_requires_every_section_witness :
  (assets example_document
   = Some (group "assets" 100 [leaf "cash" 60 "A1"; leaf "ar" 40 "A2"])
   /\ sums_within (group "assets" 100 [leaf "cash" 60 "A1"; leaf "ar" 40 "A2"])
      = true
   /\ liabilities
        (Document (assets example_document) None (equity example_document))
      = None)
  /\ validate_balance_sheet_equation
       (Document (assets example_document) None (equity example_document)) []
     = ([], Raise (KeyError "liabilities")).
Proof.
  split;
    [repeat split
    | apply (proj1 (proj2 validator_requires_every_section)
               (Document (assets example_document) None (equity example_document))
               (group "assets" 100 [leaf "cash" 60 "A1"; leaf "ar" 40 "A2"]) []);
      reflexivity].
Defined.

(** X11.  An empty ["items"] list is not the same as no ["items"].  The
    flattener treats the two alike.  The validator returns the declared
    value of a node without ["items"] whatever it is, but checks a node
    with an empty list against the empty sum: it returns only if the
    declared value is within 0.01 of zero. *)
Theorem empty_items_is_checked_against_zero
        (nm : option string) (v : float) (a : option json_id) :
  (forall p rows,
     traverse_node (Node nm (Some (Num v)) a (Some [])) p rows
     = traverse_node (Node nm (Some (Num v)) a None) p rows)
  /\ (forall log,
        validate_node_sum (Node nm (Some (Num v)) a None) log = (log, Ok v))
  /\ (forall log,
        (exists log' r,
           validate_node_sum (Node nm (Some (Num v)) a (Some [])) log
           = (log', Ok r))
        <-> (tolerance <? abs (v - 0))%float = false).
Proof.
  split; [|split].
  - intros p rows. rewrite !traverse_node_eq. reflexivity.
  - intros log. reflexivity.
  - intros log. rewrite validate_node_sum_inner. cbn [sum_gen sum_from ret].
    destruct (tolerance <? abs (v - 0))%float; split.
    + intros (log' & r & H). destruct nm; discriminate.
    + discriminate.
    + reflexivity.
    + intros _. now do 2 eexists.
Qed.

Lemma sums_within_well_formed (n : node) :
  sums_within n = true -> named n = true -> well_formed n = true.
Proof.
  induction n as [nm v a | nm v a cs IH] using node_ind; intros Hs Hn.
  - destruct v as [[f|e]|]; try discriminate.
    destruct nm; [reflexivity | discriminate].
  - destruct v as [[f|e]|]; try discriminate.
    destruct nm; [|discriminate].
    cbn in Hs, Hn |- *. apply andb_true_iff in Hs. destruct Hs as [Hs _].
    induction IH as [|c cs Hc _ IHcs]; [reflexivity|].
    cbn in Hs, Hn |- *.
    apply andb_true_iff in Hs. destruct Hs as [Hs1 Hs2].
    apply andb_true_iff in Hn. destruct Hn as [Hn1 Hn2].
    rewrite (Hc Hs1 Hn1). cbn. now apply IHcs.
Qed.

(** X12.  The two passes together, as the driver runs them: on a document
    the validator has accepted and in which every node has a name, the
    flattener returns, with one row for every node of the assets,
    liabilities and equity trees that has a value and an account
    identifier, in that order. *)
Theorem validated_named_document_flattens
        (d : document) (log log' : logger) (r : float) :
  validate_balance_sheet_equation d log = (log', Ok r) ->
  named_document d = true ->
  exists rows,
    get_all_child_values d = Ok rows
    /\ Forall2 row_of rows (filter emits (document_nodes d)).
Proof.
  intros Hv Hn. apply get_all_child_values_nodes.
  pose proof (validate_balance_sheet_equation_outcome d log) as O.
  destruct (balanced d) eqn:Hb;
    [|destruct O as (l1 & e & E); rewrite E in Hv; discriminate].
  clear O Hv. destruct d as [[a|] [l|] [e|]]; try discriminate.
  unfold balanced in Hb. cbn [assets liabilities equity] in Hb.
  apply andb_true_iff in Hb. destruct Hb as [Hb _].
  apply andb_true_iff in Hb. destruct Hb as [Hb He].
  apply andb_true_iff in Hb. destruct Hb as [Ha Hl].
  cbn in Hn.
  apply andb_true_iff in Hn. destruct Hn as [Na Hn].
  apply andb_true_iff in Hn. destruct Hn as [Nl Hn].
  apply andb_true_iff in Hn. destruct Hn as [Ne _].
  cbn. now rewrite !sums_within_well_formed.
Qed.

Lemma validated_named_document_flattens_witness :
  (validate_balance_sheet_equation example_document []
   = ([LogRecord INFO "All parent-child sums validated successfully" []],
      Ok 100%float)
   /\ named_document example_document = true)
  /\ exists rows,
       get_all_child_values example_document = Ok rows
       /\ Forall2 row_of rows (filter emits (document_nodes example_document)).
Proof.
  split;
    [split; reflexivity
    | apply (validated_named_document_flattens example_document []
               [LogRecord INFO "All parent-child sums validated successfully" []]
               100%float);
      reflexivity].
Defined.

(** ** The loader *)

(** X13.  [load_balance_sheet_json] never opens the file its argument
    names.  What it returns or raises is decided by the file
    [balance_sheet_payload.json] alone, and [path] shows up in one place
    only, the message of the [FileNotFoundError] raised (after one ERROR
    record) when that file is missing, whether or not a file exists at
    [path]. *)
Theorem loader_reads_the_fixed_file :
  (forall fs fs' path path' log,
     fs "balance_sheet_payload.json" = fs' "balance_sheet_payload.json" ->
     fs "balance_sheet_payload.json" <> NoSuchFile ->
     load_balance_sheet_json fs path log = load_balance_sheet_json fs' path' log)
  /\ (forall fs path log,
        fs "balance_sheet_payload.json" = NoSuchFile ->
        load_balance_sheet_json fs path log
        = (log ++ [LogRecord ERROR "Balance sheet json file not found" []],
           LoadRaise
             (FileNotFoundError
                ("Balance sheet json file not found at " ++ path)%string)))
  /\ (forall fs path log log' data,
        load_balance_sheet_json fs path log = (log', Loaded data) ->
        fs "balance_sheet_payload.json" = Text (Some data) /\ log' = log).
Proof.
  split; [|split].
  - intros fs fs' path path' log E Hne. unfold load_balance_sheet_json.
    rewrite <- E. destruct (fs "balance_sheet_payload.json") as [| |[data|]];
      try reflexivity. now contradiction Hne.
  - intros fs path log E. unfold load_balance_sheet_json. now rewrite E.
  - intros fs path log log' data. unfold load_balance_sheet_json.
    destruct (fs "balance_sheet_payload.json") as [| |[data'|]];
      try discriminate.
    now intros [= <- <-].
Qed.

Lemma loader_reads_the_fixed_file_witness :
  (only_other_json "other.json" = Text (Some (JObject []))
   /\ only_other_json "balance_sheet_payload.json" = NoSuchFile)
  /\ load_balance_sheet_json only_other_json "other.json" []
     = ([] ++ [LogRecord ERROR "Balance sheet json file not found" []],
        LoadRaise
          (FileNotFoundError
             ("Balance sheet json file not found at " ++ "other.json")%string)).
Proof.
  split;
    [split; reflexivity
    | apply (proj1 (proj2 loader_reads_the_fixed_file)
               only_other_json "other.json" []);
      reflexivity].
Defined.

Lemma validator_returns_iff_sums_within_witness :
  validate_node_sum within_tolerance_assets [] = ([], Ok 100.0078125%float)
  /\ ([] = @nil log_record
      /\ 100.0078125%float = declared within_tolerance_assets).
Proof.
  split;
    [reflexivity
    | apply (proj2 (validator_returns_iff_sums_within within_tolerance_assets [])
               [] 100.0078125%float);
      reflexivity].
Defined.

Lemma equation_returns_iff_balanced_witness :
  validate_balance_sheet_equation example_document []
  = ([LogRecord INFO "All parent-child sums validated successfully" []],
     Ok 100%float)
  /\ ([LogRecord INFO "All parent-child sums validated successfully" []]
      = [] ++ [LogRecord INFO "All parent-child sums validated successfully" []]
      /\ exists a, assets example_document = Some a /\ 100%float = declared a).
Proof.
  split;
    [reflexivity
    | apply (proj2 (equation_returns_iff_balanced example_document [])
               [LogRecord INFO "All parent-child sums validated successfully" []]
               100%float);
      reflexivity].
Defined.
